(** * Depts: the browser scripts of the debt and bet tracker

    A shallow embedding of the client-side scripts
    - [app_depts/js/main.js]     (stake autofill on the bet form),
    - [app_bets/js/bet_records.js] (the Kelly calculator page),
    - [app_depts/js/scripts.js]  (alerts, phone mask),
    and the properties of the Kelly stake calculator, the phone mask and
    the alert timers.

    Conventions of the embedding.
    - A JavaScript number is a [jsnum]: an exact rational, [+Infinity],
      [-Infinity] or [NaN].  Arithmetic on finite values is exact: the
      rounding of IEEE-754 doubles and the sign of zero are not modelled.
    - A JavaScript string is the list of its UTF-16 code units, each a
      number ([N]).
    - The DOM is a record of the fields the scripts read and write; the
      elements the scripts look up by id are taken to be on the page.
      Conversions of numbers to text ([Number.prototype.toString],
      [toFixed], [Intl.NumberFormat]) are operations of a [Runtime].
      The fixed Russian texts (console lines, error messages) are the
      constructors of an enumeration.
    - Timers are a queue of callbacks with due times in milliseconds,
      run by a step relation. *)

From Stdlib Require Import QArith Qround Qminmax Qabs Qpower ZArith.
From Stdlib Require Import DecimalString.
From Stdlib Require Import Ascii String List Bool Lia Lqa.
From Stdlib Require Import Setoid Morphisms.
Import ListNotations.

(* ================================================================== *)
(** ** JavaScript numbers *)

Module JSNum.

Inductive jsnum : Type :=
| Fin (q : Q)
| PInf
| NInf
| NaN.

Definition Qis0 (q : Q) : bool := Qeq_bool q 0.
Definition Qltb (a b : Q) : bool := negb (Qle_bool b a).

(** [ToBoolean]: [NaN] and zero are falsy. *)
Definition truthy (x : jsnum) : bool :=
  match x with
  | Fin q => negb (Qis0 q)
  | PInf | NInf => true
  | NaN => false
  end.

(** [x || y] on numbers. *)
Definition jor (x y : jsnum) : jsnum := if truthy x then x else y.

(** [a < b]; every comparison with [NaN] is false. *)
Definition jlt (a b : jsnum) : bool :=
  match a, b with
  | NaN, _ | _, NaN => false
  | Fin x, Fin y => Qltb x y
  | NInf, NInf => false
  | NInf, _ => true
  | _, PInf => match a with PInf => false | _ => true end
  | _, _ => false
  end.

(** [a <= b]. *)
Definition jle (a b : jsnum) : bool :=
  match a, b with
  | NaN, _ | _, NaN => false
  | Fin x, Fin y => Qle_bool x y
  | NInf, _ => true
  | _, PInf => true
  | _, _ => false
  end.

Definition jgt (a b : jsnum) : bool := jlt b a.
Definition jge (a b : jsnum) : bool := jle b a.

Definition jneg (a : jsnum) : jsnum :=
  match a with
  | Fin x => Fin (- x)
  | PInf => NInf
  | NInf => PInf
  | NaN => NaN
  end.

Definition jadd (a b : jsnum) : jsnum :=
  match a, b with
  | NaN, _ | _, NaN => NaN
  | Fin x, Fin y => Fin (x + y)
  | PInf, NInf | NInf, PInf => NaN
  | PInf, _ | _, PInf => PInf
  | NInf, _ | _, NInf => NInf
  end.

Definition jsub (a b : jsnum) : jsnum := jadd a (jneg b).

(** The infinity of the sign of [q]; [NaN] at zero ([Infinity * 0]). *)
Definition inf_times (pos : bool) (q : Q) : jsnum :=
  if Qis0 q then NaN
  else if Qltb 0 q then (if pos then PInf else NInf)
  else (if pos then NInf else PInf).

Definition jmul (a b : jsnum) : jsnum :=
  match a, b with
  | NaN, _ | _, NaN => NaN
  | Fin x, Fin y => Fin (x * y)
  | PInf, Fin y => inf_times true y
  | NInf, Fin y => inf_times false y
  | Fin x, PInf => inf_times true x
  | Fin x, NInf => inf_times false x
  | PInf, PInf | NInf, NInf => PInf
  | PInf, NInf | NInf, PInf => NInf
  end.

(** Division; a zero divisor is the positive zero. *)
Definition jdiv (a b : jsnum) : jsnum :=
  match a, b with
  | NaN, _ | _, NaN => NaN
  | Fin x, Fin y =>
      if Qis0 y then
        (if Qis0 x then NaN else if Qltb 0 x then PInf else NInf)
      else Fin (x / y)
  | Fin _, _ => Fin 0
  | PInf, Fin y => if Qltb y 0 then NInf else PInf
  | NInf, Fin y => if Qltb y 0 then PInf else NInf
  | _, _ => NaN
  end.

(** [Math.min] and [Math.max]: [NaN] when an argument is [NaN]. *)
Definition jmin (a b : jsnum) : jsnum :=
  match a, b with
  | NaN, _ | _, NaN => NaN
  | _, _ => if jle a b then a else b
  end.

Definition jmax (a b : jsnum) : jsnum :=
  match a, b with
  | NaN, _ | _, NaN => NaN
  | _, _ => if jle a b then b else a
  end.

(** [Math.round]: the nearest integer, a tie going up. *)
Definition jround (a : jsnum) : jsnum :=
  match a with
  | Fin x => Fin (inject_Z (Qfloor (x + (1 # 2))))
  | _ => a
  end.

Definition is_finite (a : jsnum) : bool :=
  match a with Fin _ => true | _ => false end.

Definition is_nan (a : jsnum) : bool :=
  match a with NaN => true | _ => false end.

(** Equality of numbers as values: rationals are compared by [Qeq]. *)
Definition jeq (a b : jsnum) : Prop :=
  match a, b with
  | Fin x, Fin y => x == y
  | PInf, PInf | NInf, NInf | NaN, NaN => True
  | _, _ => False
  end.


End JSNum.
Export JSNum.

Declare Scope js_scope.
Delimit Scope js_scope with js.
Infix "==j" := jeq (at level 70, no associativity) : js_scope.
Infix "*j" := jmul (at level 40, left associativity) : js_scope.
Infix "/j" := jdiv (at level 40, left associativity) : js_scope.
Infix "+j" := jadd (at level 50, left associativity) : js_scope.
Infix "-j" := jsub (at level 50, left associativity) : js_scope.
Coercion Fin : Q >-> jsnum.
Open Scope js_scope.

(* ================================================================== *)
(** ** JavaScript strings and the built-ins the scripts call *)

Module JSString.

(** A string is the list of its UTF-16 code units. *)
Definition jsstring := list N.

(** A string literal of the source (ASCII). *)
Definition lit (s : string) : jsstring :=
  map N_of_ascii (list_ascii_of_string s).

Definition inRange (lo hi c : N) : bool := ((lo <=? c) && (c <=? hi))%N.

(** The class [\s] of regular expressions, which is also the
    [StrWhiteSpaceChar] that [parseFloat] skips: white space and line
    terminators. *)
Definition isWhiteSpace (c : N) : bool :=
  inRange 9 13 c || (c =? 32)%N || (c =? 160)%N || (c =? 5760)%N
  || inRange 8192 8202 c || (c =? 8232)%N || (c =? 8233)%N
  || (c =? 8239)%N || (c =? 8287)%N || (c =? 12288)%N || (c =? 65279)%N.

(** The class [\d]: the ten ASCII digits. *)
Definition isDigit (c : N) : bool := inRange 48 57 c.

(** The class [\w]. *)
Definition isWord (c : N) : bool :=
  isDigit c || inRange 65 90 c || inRange 97 122 c || (c =? 95)%N.

(** [s.replace(/\s/g, '')] *)
Definition removeWhiteSpace (s : jsstring) : jsstring :=
  filter (fun c => negb (isWhiteSpace c)) s.

(** [s.replace(/\D/g, '')] *)
Definition removeNonDigits (s : jsstring) : jsstring :=
  filter isDigit s.

(** [s.replace(',', '.')]: a string pattern replaces the first
    occurrence only. *)
Fixpoint replaceFirstComma (s : jsstring) : jsstring :=
  match s with
  | [] => []
  | c :: r => if (c =? 44)%N then 46%N :: r
              else c :: replaceFirstComma r
  end.

(** [s.substring(a, b)]: both indices are clamped to the length and
    swapped when out of order. *)
Definition substring (a b : nat) (s : jsstring) : jsstring :=
  let a' := Nat.min a (length s) in
  let b' := Nat.min b (length s) in
  firstn (Nat.max a' b' - Nat.min a' b') (skipn (Nat.min a' b') s).

(** [s.substring(a)] *)
Definition substringFrom (a : nat) (s : jsstring) : jsstring :=
  substring a (length s) s.

(** *** parseFloat *)

Fixpoint dropWhiteSpace (s : jsstring) : jsstring :=
  match s with
  | c :: r => if isWhiteSpace c then dropWhiteSpace r else s
  | [] => []
  end.

(** The longest prefix of digits, and the rest. *)
Fixpoint spanDigits (s : jsstring) : jsstring * jsstring :=
  match s with
  | c :: r =>
      if isDigit c then let (d, t) := spanDigits r in (c :: d, t)
      else ([], s)
  | [] => ([], [])
  end.

Definition digitValue (c : N) : Z := Z.of_N c - 48.

Definition digitsValue (ds : jsstring) : Z :=
  fold_left (fun acc c => 10 * acc + digitValue c)%Z ds 0%Z.

Fixpoint isPrefix (p s : jsstring) : bool :=
  match p, s with
  | [], _ => true
  | a :: p', b :: s' => (a =? b)%N && isPrefix p' s'
  | _ :: _, [] => false
  end.

(** [ExponentPart]: [e] or [E], an optional sign, at least one digit;
    anything else is not part of the literal and counts as exponent 0. *)
Definition exponentOf (s : jsstring) : Z :=
  match s with
  | c :: r =>
      if (c =? 101)%N || (c =? 69)%N then
        let '(neg, r') :=
          match r with
          | d :: t => if (d =? 43)%N then (false, t)
                      else if (d =? 45)%N then (true, t)
                      else (false, r)
          | [] => (false, r)
          end in
        let (ds, _) := spanDigits r' in
        match ds with
        | [] => 0%Z
        | _ => if neg then (- digitsValue ds)%Z else digitsValue ds
        end
      else 0%Z
  | [] => 0%Z
  end.

(** The value of the longest prefix that is a [StrUnsignedDecimalLiteral]
    other than [Infinity]: digits, an optional fraction, an optional
    exponent.  [None] when there is no such prefix. *)
Definition unsignedDecimal (s : jsstring) : option Q :=
  let (ip, r1) := spanDigits s in
  let (fp, r2) :=
    match r1 with
    | c :: t => if (c =? 46)%N then spanDigits t else ([], r1)
    | [] => ([], r1)
    end in
  match ip, fp with
  | [], [] => None
  | _, _ =>
      Some (inject_Z (digitsValue (ip ++ fp))
            * Qpower 10 (exponentOf r2 - Z.of_nat (length fp)))
  end.

(** [parseFloat(s)]: leading white space is skipped, then the longest
    prefix that is a [StrDecimalLiteral] is read; [NaN] when there is
    none. *)
Definition parseFloat (s : jsstring) : jsnum :=
  let t := dropWhiteSpace s in
  let '(neg, u) :=
    match t with
    | c :: r => if (c =? 43)%N then (false, r)
                else if (c =? 45)%N then (true, r)
                else (false, t)
    | [] => (false, t)
    end in
  if isPrefix (lit "Infinity") u then (if neg then NInf else PInf)
  else match unsignedDecimal u with
       | Some q => Fin (if neg then - q else q)
       | None => NaN
       end.

(** *** Numbers as text *)

(** The conversions of a number to text that the scripts use. *)
Class Runtime : Type := {
  numToString : jsnum -> jsstring;      (* [String(x)], [x.toString()] *)
  toFixed : jsnum -> nat -> jsstring;   (* [x.toFixed(d)]              *)
  formatRu : jsnum -> jsstring          (* [Intl.NumberFormat('ru-RU')] *)
}.

(** [s.replace(/\B(?=(\d{3})+(?!\d))/g, " ")]: a space goes in at
    every position that is not a word boundary and is followed by a
    run of digits whose length is a positive multiple of three. *)
Fixpoint digitRun (s : jsstring) : nat :=
  match s with
  | c :: r => if isDigit c then S (digitRun r) else 0
  | [] => 0
  end.

Definition wordAt (c : option N) : bool :=
  match c with Some x => isWord x | None => false end.

Definition groupHere (prev : option N) (s : jsstring) : bool :=
  Bool.eqb (wordAt prev) (wordAt (hd_error s))
  && (3 <=? digitRun s) && (digitRun s mod 3 =? 0).

Fixpoint groupFrom (prev : option N) (s : jsstring) : jsstring :=
  match s with
  | [] => []
  | c :: r =>
      (if groupHere prev s then [32%N] else []) ++ c :: groupFrom (Some c) r
  end.

Definition groupThousands (s : jsstring) : jsstring := groupFrom None s.

End JSString.
Export JSString.

(* ================================================================== *)
(** ** main.js: the stake field of the bet form *)

Module Main.

(** A form control; the scripts use its [value] only. *)
Record Element : Type := { value : jsstring }.

(** The lines written to the console. *)
Inductive logmsg : Type :=
| StakeSetAutomatically
| StakeNotChanged
| ConditionNotMet
| OddsAtMost1
| ProbAtMost0
| ProbAtLeast100
| BankAtMost0
| StakeResetTo0.

(** The part of the page the script works on: the six controls found by
    [getElementById] (the listener stops at its first [addEventListener]
    when one is missing, before any run of [calculateStake]), the
    expando [_userModified] of [stakeDisplay], and the console. *)
Record Page : Type := {
  bankInput : Element;
  oddsInput : Element;
  probInput : Element;
  kellySelect : Element;
  stakeInput : Element;
  stakeDisplay : Element;
  userModified : bool;
  console : list logmsg
}.

Definition getFloatValue (element : option Element) : jsnum :=
  match element with
  | None => Fin 0
  | Some e =>
      match value e with
      | [] => Fin 0
      | v => jor (parseFloat (replaceFirstComma (removeWhiteSpace v))) (Fin 0)
      end
  end.

Definition roundToHundreds (v : jsnum) : jsnum :=
  jmul (jround (jdiv v (Fin 100))) (Fin 100).

Section Script.
Context {R : Runtime}.

Definition formatNumberWithSpaces (v : jsnum) : jsstring :=
  groupThousands (numToString v).

(** The four numbers [calculateStake] reads. *)
Definition bankOf (pg : Page) : jsnum := getFloatValue (Some (bankInput pg)).
Definition oddsOf (pg : Page) : jsnum := getFloatValue (Some (oddsInput pg)).
Definition probOf (pg : Page) : jsnum := getFloatValue (Some (probInput pg)).
Definition fractionOf (pg : Page) : jsnum :=
  jor (parseFloat (value (kellySelect pg))) (Fin 0).

(** The condition of the [if]. *)
Definition accepts (bank odds prob : jsnum) : bool :=
  jgt odds (Fin 1) && jgt prob (Fin 0) && jle prob (Fin 100)
  && jgt bank (Fin 0).

(** The constants of the accepting branch. *)
Definition fullKelly (odds prob : jsnum) : jsnum :=
  let p := jdiv prob (Fin 100) in
  jdiv (jsub (jmul p odds) (Fin 1)) (jsub odds (Fin 1)).

Definition limitedKelly (odds prob : jsnum) : jsnum :=
  jmax (Fin 0) (jmin (fullKelly odds prob) (Fin 1)).

Definition stake (bank odds prob fraction : jsnum) : jsnum :=
  jmul (jmul bank (limitedKelly odds prob)) fraction.

Definition setStake (pg : Page) (raw shown : jsstring) (l : list logmsg)
  : Page :=
  {| bankInput := bankInput pg; oddsInput := oddsInput pg;
     probInput := probInput pg; kellySelect := kellySelect pg;
     stakeInput := {| value := raw |};
     stakeDisplay := {| value := shown |};
     userModified := userModified pg;
     console := console pg ++ l |}.

Definition log (pg : Page) (l : list logmsg) : Page :=
  {| bankInput := bankInput pg; oddsInput := oddsInput pg;
     probInput := probInput pg; kellySelect := kellySelect pg;
     stakeInput := stakeInput pg; stakeDisplay := stakeDisplay pg;
     userModified := userModified pg;
     console := console pg ++ l |}.

Definition setUserModified (pg : Page) (b : bool) : Page :=
  {| bankInput := bankInput pg; oddsInput := oddsInput pg;
     probInput := probInput pg; kellySelect := kellySelect pg;
     stakeInput := stakeInput pg; stakeDisplay := stakeDisplay pg;
     userModified := b;
     console := console pg |}.

Definition when (b : bool) (m : logmsg) : list logmsg :=
  if b then [m] else [].

Definition calculateStake (pg : Page) : Page :=
  let bank := getFloatValue (Some (bankInput pg)) in
  let odds := getFloatValue (Some (oddsInput pg)) in
  let prob := getFloatValue (Some (probInput pg)) in
  let fraction := jor (parseFloat (value (kellySelect pg))) (Fin 0) in
  if accepts bank odds prob then
    let roundedStake := roundToHundreds (stake bank odds prob fraction) in
    if negb (userModified pg) then
      setStake pg (numToString roundedStake)
               (formatNumberWithSpaces roundedStake)
               [StakeSetAutomatically]
    else log pg [StakeNotChanged]
  else
    let diagnostics :=
      [ConditionNotMet]
      ++ when (jle odds (Fin 1)) OddsAtMost1
      ++ when (jle prob (Fin 0)) ProbAtMost0
      ++ when (jge prob (Fin 100)) ProbAtLeast100
      ++ when (jle bank (Fin 0)) BankAtMost0 in
    if negb (userModified pg) then
      setStake pg (lit "0") (lit "0") (diagnostics ++ [StakeResetTo0])
    else log pg diagnostics.

(** The [input] listener of [stakeDisplay]. *)
Definition stakeDisplayInput (pg : Page) : Page :=
  let pg' := setUserModified pg true in
  let rawValue := removeWhiteSpace (value (stakeDisplay pg')) in
  {| bankInput := bankInput pg'; oddsInput := oddsInput pg';
     probInput := probInput pg'; kellySelect := kellySelect pg';
     stakeInput := {| value := rawValue |};
     stakeDisplay := stakeDisplay pg';
     userModified := userModified pg';
     console := console pg' |}.

Definition recalcWithFlag (pg : Page) : Page :=
  calculateStake (setUserModified pg false).

(** What the user does on the form: each edit changes the control's
    value, then the listener registered for it runs. *)
Inductive event : Type :=
| EditBank (v : jsstring)
| EditOdds (v : jsstring)
| EditProb (v : jsstring)
| ChangeKelly (v : jsstring)
| EditStakeDisplay (v : jsstring).

Definition edit (ev : event) (pg : Page) : Page :=
  let f (e : Element) (v : option jsstring) : Element :=
    match v with Some x => {| value := x |} | None => e end in
  {| bankInput := f (bankInput pg)
       match ev with EditBank v => Some v | _ => None end;
     oddsInput := f (oddsInput pg)
       match ev with EditOdds v => Some v | _ => None end;
     probInput := f (probInput pg)
       match ev with EditProb v => Some v | _ => None end;
     kellySelect := f (kellySelect pg)
       match ev with ChangeKelly v => Some v | _ => None end;
     stakeInput := stakeInput pg;
     stakeDisplay := f (stakeDisplay pg)
       match ev with EditStakeDisplay v => Some v | _ => None end;
     userModified := userModified pg;
     console := console pg |}.

Definition dispatch (ev : event) (pg : Page) : Page :=
  match ev with
  | EditStakeDisplay _ => stakeDisplayInput (edit ev pg)
  | _ => recalcWithFlag (edit ev pg)
  end.

(** The end of the [DOMContentLoaded] listener. *)
Definition onLoad (pg : Page) : Page :=
  calculateStake (setUserModified pg false).

End Script.
End Main.

(* ================================================================== *)
(** ** bet_records.js: the Kelly calculator page *)

Module BetRecords.

(** The texts [showError] is called with. *)
Inductive message : Type :=
| OddsMustExceed101
| CannotComputeProbability
| ProbabilityOutOfRange
| BankAtLeast100.

(** The values of the four controls. *)
Record Inputs : Type := {
  oddsInput : jsstring;
  probInput : jsstring;
  bankInput : jsstring;
  kellySelect : jsstring
}.

(** The ROI line: its class ([positive] or [negative]) and the figure
    shown after the label. *)
Record RoiIndicator : Type := {
  positive : bool;
  roiFigure : jsstring
}.

(** The text of the elements of the result block;
    [progressFillWidth] is the value assigned to [style.width]. *)
Record Results : Type := {
  resultProb : jsstring;
  resultOdds : jsstring;
  resultBank : jsstring;
  resultKelly : jsstring;
  roiIndicator : option RoiIndicator;
  recommendedStake : jsstring;
  stakePercent : jsstring;
  progressPercent : jsstring;
  progressFillWidth : jsstring
}.

Record Page : Type := {
  inputs : Inputs;
  results : Results;
  resultBlockDisplay : jsstring;
  errorBlockDisplay : jsstring;
  errorMessage : option message
}.

Definition DEFAULT_ROI : jsnum := Fin 5.

(** The ruble sign that follows the amounts. *)
Definition rubleSuffix : jsstring := lit " " ++ [8381%N].

Section Script.
Context {R : Runtime}.

(** [null] is [None]. *)
Definition calculateDefaultProbability (pg : Page) : option jsnum :=
  let odds := parseFloat (oddsInput (inputs pg)) in
  if negb (truthy odds) || jlt odds (Fin (101 # 100)) then None
  else
    let p := jdiv (jadd (Fin 1) (jdiv DEFAULT_ROI (Fin 100))) odds in
    let probPercent := jmul p (Fin 100) in
    Some (jmin probPercent (Fin (999 # 10))).

Definition formatNumber (v : jsnum) : jsstring := formatRu (jround v).

Definition showError (pg : Page) (m : message) : Page :=
  {| inputs := inputs pg; results := results pg;
     resultBlockDisplay := lit "none";
     errorBlockDisplay := lit "flex";
     errorMessage := Some m |}.

Definition hideError (pg : Page) : Page :=
  {| inputs := inputs pg; results := results pg;
     resultBlockDisplay := resultBlockDisplay pg;
     errorBlockDisplay := lit "none";
     errorMessage := errorMessage pg |}.

Definition setProbInput (pg : Page) (v : jsstring) : Page :=
  {| inputs := {| oddsInput := oddsInput (inputs pg);
                  probInput := v;
                  bankInput := bankInput (inputs pg);
                  kellySelect := kellySelect (inputs pg) |};
     results := results pg;
     resultBlockDisplay := resultBlockDisplay pg;
     errorBlockDisplay := errorBlockDisplay pg;
     errorMessage := errorMessage pg |}.

(** The probability [calculate] goes on with: the one entered, or, when
    none is entered or it is not positive, the default one, which is
    also written to the control.  [inr] is the early [return false]. *)
Definition probabilityToUse (pg : Page) (prob : jsnum)
  : (jsnum * Page) + Page :=
  if negb (truthy prob) || jle prob (Fin 0) then
    match calculateDefaultProbability pg with
    | Some defaultProb =>
        if truthy defaultProb then
          inl (defaultProb, setProbInput pg (toFixed defaultProb 1))
        else inr (showError pg CannotComputeProbability)
    | None => inr (showError pg CannotComputeProbability)
    end
  else inl (prob, pg).

(** The constants of [calculate] after the checks. *)
Definition fullKelly (odds prob : jsnum) : jsnum :=
  let p := jdiv prob (Fin 100) in
  jdiv (jsub (jmul p odds) (Fin 1)) (jsub odds (Fin 1)).

Definition limitedKelly (odds prob : jsnum) : jsnum :=
  jmax (Fin 0) (jmin (fullKelly odds prob) (Fin 1)).

Definition stakeKelly (odds prob fraction : jsnum) : jsnum :=
  jmul (limitedKelly odds prob) fraction.

Definition stake (bank odds prob fraction : jsnum) : jsnum :=
  jmul bank (stakeKelly odds prob fraction).

Definition roundedStake (bank odds prob fraction : jsnum) : jsnum :=
  jmul (jround (jdiv (stake bank odds prob fraction) (Fin 100))) (Fin 100).

Definition currentRoi (odds prob : jsnum) : jsnum :=
  let p := jdiv prob (Fin 100) in
  jmul (jsub (jmul p odds) (Fin 1)) (Fin 100).

(** The writes to the result block, and its display. *)
Definition showResult (pg : Page) (bank odds prob fraction : jsnum) : Page :=
  let sk := stakeKelly odds prob fraction in
  let roi := currentRoi odds prob in
  let progressWidth := jmin (jmul sk (Fin 100)) (Fin 100) in
  {| inputs := inputs pg;
     results :=
       {| resultProb := toFixed prob 1 ++ lit "%";
          resultOdds := toFixed odds 2;
          resultBank := formatNumber bank ++ rubleSuffix;
          resultKelly := numToString fraction;
          roiIndicator :=
            Some {| positive := jgt roi (Fin 0);
                    roiFigure :=
                      (if jgt roi (Fin 0) then lit "+" else [])
                      ++ toFixed roi 1 ++ lit "%" |};
          recommendedStake :=
            formatNumber (roundedStake bank odds prob fraction)
            ++ rubleSuffix;
          stakePercent := toFixed (jmul sk (Fin 100)) 2 ++ lit "%";
          progressPercent := toFixed progressWidth 1 ++ lit "%";
          progressFillWidth := numToString progressWidth ++ lit "%" |};
     resultBlockDisplay := lit "block";
     errorBlockDisplay := errorBlockDisplay pg;
     errorMessage := errorMessage pg |}.

(** [calculate]: the value returned and the page it leaves. *)
Definition calculate (pg : Page) : bool * Page :=
  let odds := parseFloat (oddsInput (inputs pg)) in
  let prob := parseFloat (probInput (inputs pg)) in
  let bank := parseFloat (bankInput (inputs pg)) in
  let fraction := parseFloat (kellySelect (inputs pg)) in
  if negb (truthy odds) || jlt odds (Fin (101 # 100)) then
    (false, showError pg OddsMustExceed101)
  else
    match probabilityToUse pg prob with
    | inr pg' => (false, pg')
    | inl (prob, pg) =>
        if jle prob (Fin 0) || jge prob (Fin 100) then
          (false, showError pg ProbabilityOutOfRange)
        else if negb (truthy bank) || jlt bank (Fin 100) then
          (false, showError pg BankAtLeast100)
        else
          (true, showResult (hideError pg) bank odds prob fraction)
    end.

(** The numbers [calculate] reads. *)
Definition oddsOf (pg : Page) : jsnum := parseFloat (oddsInput (inputs pg)).
Definition probOf (pg : Page) : jsnum := parseFloat (probInput (inputs pg)).
Definition bankOf (pg : Page) : jsnum := parseFloat (bankInput (inputs pg)).
Definition fractionOf (pg : Page) : jsnum :=
  parseFloat (kellySelect (inputs pg)).


End Script.
End BetRecords.

(* ================================================================== *)
(** ** scripts.js: the phone mask and the alerts *)

Module Scripts.

(** *** The phone mask *)

(** [name.includes('phone')] *)
Fixpoint includes (needle s : jsstring) : bool :=
  isPrefix needle s ||
  match s with
  | [] => false
  | _ :: r => includes needle r
  end.

(** The body of the [input] listener: from [input.value] to the value
    written back. *)
Definition formatPhone (inputValue : jsstring) : jsstring :=
  let value := removeNonDigits inputValue in
  let value :=
    match value with
    | c :: _ => if (c =? 55)%N || (c =? 56)%N then substringFrom 1 value
                else value
    | [] => value
    end in
  let formattedValue := lit "+7 " in
  let formattedValue :=
    if 0 <? length value
    then formattedValue ++ lit "(" ++ substring 0 3 value
    else formattedValue in
  let formattedValue :=
    if 3 <=? length value
    then formattedValue ++ lit ") " ++ substring 3 6 value
    else formattedValue in
  let formattedValue :=
    if 6 <=? length value
    then formattedValue ++ lit "-" ++ substring 6 8 value
    else formattedValue in
  let formattedValue :=
    if 8 <=? length value
    then formattedValue ++ lit "-" ++ substring 8 10 value
    else formattedValue in
  formattedValue.

(** The two halves of [formatPhone]: the digits kept, and the mask laid
    over them. *)
Definition phoneDigits (inputValue : jsstring) : jsstring :=
  let value := removeNonDigits inputValue in
  match value with
  | c :: _ => if (c =? 55)%N || (c =? 56)%N then substringFrom 1 value
              else value
  | [] => value
  end.

Definition phoneLayout (value : jsstring) : jsstring :=
  let formattedValue := lit "+7 " in
  let formattedValue :=
    if 0 <? length value
    then formattedValue ++ lit "(" ++ substring 0 3 value
    else formattedValue in
  let formattedValue :=
    if 3 <=? length value
    then formattedValue ++ lit ") " ++ substring 3 6 value
    else formattedValue in
  let formattedValue :=
    if 6 <=? length value
    then formattedValue ++ lit "-" ++ substring 6 8 value
    else formattedValue in
  let formattedValue :=
    if 8 <=? length value
    then formattedValue ++ lit "-" ++ substring 8 10 value
    else formattedValue in
  formattedValue.

(** The listener: only controls whose name contains [phone] are masked. *)
Definition phoneInput (name value : jsstring) : jsstring :=
  match name with
  | [] => value
  | _ => if includes (lit "phone") name then formatPhone value else value
  end.

(** *** The alerts *)






Fixpoint update {A : Type} (i : nat) (f : A -> A) (l : list A) : list A :=
  match l, i with
  | [], _ => []
  | x :: r, O => f x :: r
  | x :: r, S j => x :: update j f r
  end.















End Scripts.

(* ================================================================== *)
(** ** The stake formula of the specification *)

Module Formula.



(** The same formula in the arithmetic of the scripts, which also gives
    it a value at [Infinity] and [NaN]. *)
Definition kelly (bankroll odds p fraction : jsnum) : jsnum :=
  jmul
    (jmul bankroll
       (jmax (Fin 0)
          (jmin (jdiv (jsub (jmul p odds) (Fin 1)) (jsub odds (Fin 1)))
                (Fin 1))))
    fraction.


End Formula.

(* ================================================================== *)
(** ** The outcome of a rejected calculation *)


(** The edits that go to [recalcWithFlag]. *)
Definition recalculates (ev : Main.event) : bool :=
  match ev with Main.EditStakeDisplay _ => false | _ => true end.

(* ================================================================== *)
(** ** A runtime for the examples *)

Module ExampleRuntime.

(** Decimal text of an integer. *)
Definition decimal (z : Z) : jsstring :=
  lit (NilZero.string_of_int (Z.to_int z)).

Definition padLeft (n : nat) (s : jsstring) : jsstring :=
  repeat 48%N (n - length s) ++ s.

(** [x.toFixed(d)] of an exact rational: the nearest decimal with [d]
    digits, a tie going away from zero. *)
Definition fixed (x : jsnum) (d : nat) : jsstring :=
  match x with
  | NaN => lit "NaN"
  | PInf => lit "Infinity"
  | NInf => lit "-Infinity"
  | Fin q =>
      let scale := (10 ^ Z.of_nat d)%Z in
      let n := Qfloor (Qabs q * inject_Z scale + (1 # 2)) in
      (if Qltb q 0 then lit "-" else [])
      ++ decimal (n / scale)
      ++ match d with
         | O => []
         | _ => lit "." ++ padLeft d (decimal (n mod scale))
         end
  end.

Fixpoint dropZeros (s : jsstring) : jsstring :=
  match s with
  | c :: r => if (c =? 48)%N then dropZeros r else s
  | [] => []
  end.

(** Text of a number: exact for integers, at most six digits after the
    point otherwise. *)
Definition text (x : jsnum) : jsstring :=
  match x with
  | Fin q =>
      if Qeq_bool q (inject_Z (Qfloor q)) then decimal (Qfloor q)
      else rev (dropZeros (rev (fixed x 6)))
  | _ => fixed x 0
  end.

(** Russian grouping: a no-break space between groups of three. *)
Definition ru (x : jsnum) : jsstring :=
  map (fun c => if (c =? 32)%N then 160%N else c) (groupThousands (text x)).

Definition runtime : Runtime :=
  {| numToString := text; toFixed := fixed; formatRu := ru |}.

End ExampleRuntime.

(* ================================================================== *)
(** ** Pages used in the examples *)

Module Examples.

Definition betsPage (odds prob bank kelly : string) : BetRecords.Page :=
  {| BetRecords.inputs :=
       {| BetRecords.oddsInput := lit odds;
          BetRecords.probInput := lit prob;
          BetRecords.bankInput := lit bank;
          BetRecords.kellySelect := lit kelly |};
     BetRecords.results :=
       {| BetRecords.resultProb := []; BetRecords.resultOdds := [];
          BetRecords.resultBank := []; BetRecords.resultKelly := [];
          BetRecords.roiIndicator := None;
          BetRecords.recommendedStake := [];
          BetRecords.stakePercent := [];
          BetRecords.progressPercent := [];
          BetRecords.progressFillWidth := [] |};
     BetRecords.resultBlockDisplay := lit "none";
     BetRecords.errorBlockDisplay := lit "none";
     BetRecords.errorMessage := None |}.

Definition mainPage (bank odds prob kelly stake : string) (modified : bool)
  : Main.Page :=
  {| Main.bankInput := {| Main.value := lit bank |};
     Main.oddsInput := {| Main.value := lit odds |};
     Main.probInput := {| Main.value := lit prob |};
     Main.kellySelect := {| Main.value := lit kelly |};
     Main.stakeInput := {| Main.value := lit stake |};
     Main.stakeDisplay := {| Main.value := lit stake |};
     Main.userModified := modified;
     Main.console := [] |}.


(** Odds 2, probability 60, bank 1000, half Kelly. *)
Definition halfKellyPage : BetRecords.Page := betsPage "2" "60" "1000" "0.5".








(** A form whose stake the user has typed: 700. *)
Definition typedStakeForm : Main.Page :=
  mainPage "1000" "2" "60" "0.5" "700" true.


End Examples.

(* ================================================================== *)
(** ** main.js: the record cards *)

Module Cards.

Definition highlighted : jsstring := lit "2px solid #3498db".

(** The [click] listener of card [i]; a page is the list of the
    [style.outline] of its cards. *)
Definition click (i : nat) (cards : list jsstring) : list jsstring :=
  Scripts.update i (fun _ => highlighted)
    (map (fun _ => lit "none") cards).

End Cards.

(* ================================================================== *)
(** ** main.js: a session on the bet form *)

Module Session.

Section Script.
Context {R : Runtime}.

(** The page after the load and the edits [evs], in order. *)
Definition after (evs : list Main.event) (pg : Main.Page) : Main.Page :=
  fold_left (fun p ev => Main.dispatch ev p) evs (Main.onLoad pg).

(** The stake [calculateStake] fills in for the present fields. *)
Definition automatic (pg : Main.Page) : jsstring * jsstring :=
  if Main.accepts (Main.bankOf pg) (Main.oddsOf pg) (Main.probOf pg) then
    let r := Main.roundToHundreds
               (Main.stake (Main.bankOf pg) (Main.oddsOf pg) (Main.probOf pg)
                  (Main.fractionOf pg)) in
    (numToString r, Main.formatNumberWithSpaces r)
  else (lit "0", lit "0").

End Script.

(** Two pages with the same four fields. *)
Definition sameFields (f g : Main.Page) : Prop :=
  Main.bankInput f = Main.bankInput g
  /\ Main.oddsInput f = Main.oddsInput g
  /\ Main.probInput f = Main.probInput g
  /\ Main.kellySelect f = Main.kellySelect g.

(** The fields as the edits [evs] leave them. *)
Definition edited (evs : list Main.event) (pg : Main.Page) : Main.Page :=
  fold_left (fun p ev => Main.edit ev p) evs pg.

End Session.

(* ================================================================== *)
(** ** bet_records.js: the probability hint and the examples *)

Module Hint.

(** The calculator page with the hint under the probability field (the
    figure shown in it, [None] when the hint is empty) and the options
    of the multiplier select. *)
Record Page : Type := {
  page : BetRecords.Page;
  defaultProbHint : option jsstring;
  kellyOptions : list jsstring
}.



Section Script.
Context {R : Runtime}.



Definition setDefaultProbability (hp : Page) : Page :=
  match BetRecords.calculateDefaultProbability (page hp) with
  | Some defaultProb =>
      if truthy defaultProb then
        {| page := BetRecords.setProbInput (page hp) (toFixed defaultProb 1);
           defaultProbHint := defaultProbHint hp;
           kellyOptions := kellyOptions hp |}
      else hp
  | None => hp
  end.




End Script.
End Hint.

(* ================================================================== *)
(** ** bet_records.js: the bulk actions *)

Module BulkActions.

(** A [.bet-select] checkbox. *)
Record Checkbox : Type := {
  cbValue : jsstring;
  checked : bool
}.

(** A child node of the form, or an element elsewhere on the page: a
    text node, or an element with its id, type, name and value. *)
Record Node : Type := {
  isElement : bool;
  nodeId : jsstring;
  nodeType : jsstring;
  nodeName : jsstring;
  nodeValue : jsstring
}.

(** The two calls of [alert]. *)
Inductive alertText : Type :=
| ChooseAction
| ChooseBet.

(** The text put in the modal: the question for a deletion, or the one
    that names the action in lower case, each with the number of bets. *)
Inductive modalText : Type :=
| ConfirmDelete (count : nat)
| ConfirmAction (actionText : jsstring) (count : nat).

(** The page: the checkboxes (which are not children of the form), the
    apply button, the option selected in [bulkAction] (its value and
    its text; [None] when none is), the child nodes of the form, the
    other elements, the modal, the alerts shown, and how many times the
    form was submitted. *)
Record Page : Type := {
  checkboxes : list Checkbox;
  applyDisabled : bool;
  actionSelected : option (jsstring * jsstring);
  formNodes : list Node;
  outside : list Node;
  modalShown : bool;
  modalBody : option modalText;
  alerts : list alertText;
  submissions : nat
}.

(** A handler ends, or stops at a [TypeError] on a missing element. *)
Inductive outcome : Type :=
| Done (p : Page)
| Threw (p : Page).

Fixpoint streq (a b : jsstring) : bool :=
  match a, b with
  | [], [] => true
  | x :: a', y :: b' => (x =? y)%N && streq a' b'
  | _, _ => false
  end.

(** [form.children.length] *)
Definition countElements (nodes : list Node) : nat :=
  length (filter isElement nodes).

(** [while (form.children.length > 3) form.removeChild(form.lastChild)];
    every turn removes a node, so the number of nodes is fuel enough. *)
Fixpoint trimFuel (fuel : nat) (nodes : list Node) : list Node :=
  match fuel with
  | O => nodes
  | S n =>
      if 3 <? countElements nodes then trimFuel n (removelast nodes)
      else nodes
  end.

Definition trim (nodes : list Node) : list Node :=
  trimFuel (length nodes) nodes.

(** [document.getElementById(id).value = v], on the first element with
    that id; [None] when there is none. *)
Fixpoint setValue (id v : jsstring) (nodes : list Node) : option (list Node) :=
  match nodes with
  | [] => None
  | n :: r =>
      if isElement n && streq (nodeId n) id then
        Some ({| isElement := true; nodeId := nodeId n;
                 nodeType := nodeType n; nodeName := nodeName n;
                 nodeValue := v |} :: r)
      else option_map (cons n) (setValue id v r)
  end.

Definition hiddenInput (cb : Checkbox) : Node :=
  {| isElement := true; nodeId := []; nodeType := lit "hidden";
     nodeName := lit "selected_bets"; nodeValue := cbValue cb |}.

Section Script.
(** [String.prototype.toLowerCase] *)
Variable toLowerCase : jsstring -> jsstring.

(** [document.querySelectorAll('.bet-select:checked')] *)
Definition selectedOf (p : Page) : list Checkbox :=
  filter checked (checkboxes p).

Definition updateButtonState (p : Page) : Page :=
  {| checkboxes := checkboxes p;
     applyDisabled := (length (selectedOf p) =? 0);
     actionSelected := actionSelected p;
     formNodes := formNodes p; outside := outside p;
     modalShown := modalShown p; modalBody := modalBody p;
     alerts := alerts p; submissions := submissions p |}.

(** The [change] event of checkbox [i]: the box flips, then the
    listener runs. *)
Definition toggleCheckbox (i : nat) (p : Page) : Page :=
  updateButtonState
    {| checkboxes :=
         Scripts.update i
           (fun cb => {| cbValue := cbValue cb; checked := negb (checked cb) |})
           (checkboxes p);
       applyDisabled := applyDisabled p;
       actionSelected := actionSelected p;
       formNodes := formNodes p; outside := outside p;
       modalShown := modalShown p; modalBody := modalBody p;
       alerts := alerts p; submissions := submissions p |}.

Definition alert (t : alertText) (p : Page) : Page :=
  {| checkboxes := checkboxes p; applyDisabled := applyDisabled p;
     actionSelected := actionSelected p;
     formNodes := formNodes p; outside := outside p;
     modalShown := modalShown p; modalBody := modalBody p;
     alerts := alerts p ++ [t]; submissions := submissions p |}.

Definition withDocument (p : Page) (form out : list Node) : Page :=
  {| checkboxes := checkboxes p; applyDisabled := applyDisabled p;
     actionSelected := actionSelected p;
     formNodes := form; outside := out;
     modalShown := modalShown p; modalBody := modalBody p;
     alerts := alerts p; submissions := submissions p |}.

(** The assignment to the value of the element [id], looked up in the
    form first and then among the other elements. *)
Definition assignById (id v : jsstring) (p : Page) : option Page :=
  match setValue id v (formNodes p) with
  | Some form => Some (withDocument p form (outside p))
  | None =>
      match setValue id v (outside p) with
      | Some out => Some (withDocument p (formNodes p) out)
      | None => None
      end
  end.

(** [actionSelect.value] *)
Definition actionValue (p : Page) : jsstring :=
  match actionSelected p with
  | Some (v, _) => v
  | None => []
  end.

(** The [click] listener of the apply button. *)
Definition applyClick (p : Page) : outcome :=
  let action := actionValue p in
  match action with
  | [] => Done (alert ChooseAction p)
  | _ =>
      let selected := selectedOf p in
      if length selected =? 0 then Done (alert ChooseBet p)
      else
        let p1 := withDocument p (trim (formNodes p)) (outside p) in
        match assignById (lit "bulkActionInput") action p1 with
        | None => Threw p1
        | Some p2 =>
            let p3 :=
              fold_left
                (fun q cb =>
                   withDocument q (formNodes q ++ [hiddenInput cb]) (outside q))
                selected p2 in
            let body :=
              if streq action (lit "delete")
              then ConfirmDelete (length selected)
              else
                ConfirmAction
                  (toLowerCase
                     match actionSelected p with
                     | Some (_, text) => text
                     | None => []
                     end)
                  (length selected) in
            Done
              {| checkboxes := checkboxes p3;
                 applyDisabled := applyDisabled p3;
                 actionSelected := actionSelected p3;
                 formNodes := formNodes p3; outside := outside p3;
                 modalShown := true; modalBody := Some body;
                 alerts := alerts p3; submissions := submissions p3 |}
        end
  end.

(** [confirmBtn.onclick] *)
Definition confirmClick (p : Page) : outcome :=
  match assignById (lit "confirmInput") (lit "true") p with
  | None => Threw p
  | Some q =>
      Done
        {| checkboxes := checkboxes q; applyDisabled := applyDisabled q;
           actionSelected := actionSelected q;
           formNodes := formNodes q; outside := outside q;
           modalShown := modalShown q; modalBody := modalBody q;
           alerts := alerts q; submissions := S (submissions q) |}
  end.

End Script.

(** [window.toggleFilters], on the display of the filter form and the
    text of the toggle. *)
Definition arrowDown : jsstring := [9660%N].
Definition arrowRight : jsstring := [9654%N].

Definition toggleFilters (st : jsstring * jsstring) : jsstring * jsstring :=
  if streq (fst st) (lit "none") then (lit "block", arrowDown)
  else (lit "none", arrowRight).

End BulkActions.

(* ================================================================== *)
(** ** scripts.js: the pay-all button and the mask with a limit *)

Module Scripts2.


(** The other [input] listener of scripts.js (lines 72-111): the same
    mask, and beyond ten digits the first 18 characters of the value as
    it was typed. *)
Definition formatPhoneLimited (inputValue : jsstring) : jsstring :=
  let value := removeNonDigits inputValue in
  let value :=
    match value with
    | c :: _ => if (c =? 55)%N || (c =? 56)%N then substringFrom 1 value
                else value
    | [] => value
    end in
  let formattedValue := lit "+7 " in
  let formattedValue :=
    if 0 <? length value
    then formattedValue ++ lit "(" ++ substring 0 3 value
    else formattedValue in
  let formattedValue :=
    if 3 <=? length value
    then formattedValue ++ lit ") " ++ substring 3 6 value
    else formattedValue in
  let formattedValue :=
    if 6 <=? length value
    then formattedValue ++ lit "-" ++ substring 6 8 value
    else formattedValue in
  let formattedValue :=
    if 8 <=? length value
    then formattedValue ++ lit "-" ++ substring 8 10 value
    else formattedValue in
  let formattedValue :=
    if 10 <? length value
    then substring 0 18 inputValue
    else formattedValue in
  formattedValue.

(** The [keydown] listener: whether the key is suppressed. *)
Definition blocksKey (selectionStart : nat) (keyCode : N) : bool :=
  (selectionStart <=? 3) && ((keyCode =? 8)%N || (keyCode =? 46)%N).

End Scripts2.

(* ================================================================== *)
(** ** Numbers written in decimal *)

Module Decimal.

(** The number written [i.f]: the integer part plus the fraction. *)
Definition value (i f : jsstring) : Q :=
  inject_Z (digitsValue i)
  + inject_Z (digitsValue f) / inject_Z (10 ^ Z.of_nat (length f)).


End Decimal.

(* ================================================================== *)
(** ** Sample pages of the bulk actions *)

(** Whether the masked value of [n] digits ends with a character of the
    mask. *)
Definition endsWithMask (n : nat) : bool :=
  (n =? 0)%nat || (n =? 3)%nat || (n =? 6)%nat || (n =? 8)%nat.

Module BulkExamples.

Definition field (id : string) : BulkActions.Node :=
  {| BulkActions.isElement := true; BulkActions.nodeId := lit id;
     BulkActions.nodeType := lit "hidden"; BulkActions.nodeName := lit id;
     BulkActions.nodeValue := [] |}.

Definition box (v : string) (c : bool) : BulkActions.Checkbox :=
  {| BulkActions.cbValue := lit v; BulkActions.checked := c |}.

(** A form with its three fields, and two of three bets checked. *)
Definition page : BulkActions.Page :=
  {| BulkActions.checkboxes := [box "11" true; box "12" false; box "13" true];
     BulkActions.applyDisabled := false;
     BulkActions.actionSelected := Some (lit "delete", lit "Delete");
     BulkActions.formNodes :=
       [field "csrfmiddlewaretoken"; field "bulkActionInput";
        field "confirmInput"];
     BulkActions.outside := [];
     BulkActions.modalShown := false;
     BulkActions.modalBody := None;
     BulkActions.alerts := [];
     BulkActions.submissions := 0 |}.

(** The same page with the second bet checked too: a change of that
    box gives [page]. *)
Definition unchecked : BulkActions.Page :=
  {| BulkActions.checkboxes := [box "11" true; box "12" true; box "13" true];
     BulkActions.applyDisabled := false;
     BulkActions.actionSelected := Some (lit "delete", lit "Delete");
     BulkActions.formNodes :=
       [field "csrfmiddlewaretoken"; field "bulkActionInput";
        field "confirmInput"];
     BulkActions.outside := [];
     BulkActions.modalShown := false;
     BulkActions.modalBody := None;
     BulkActions.alerts := [];
     BulkActions.submissions := 0 |}.

Definition clicked : BulkActions.Page :=
  match BulkActions.applyClick (fun s => s) page with
  | BulkActions.Done q | BulkActions.Threw q => q
  end.

End BulkExamples.

(* ================================================================== *)
(** ** The arithmetic of [jsnum] *)

Section NumFacts.

Local Open Scope Q_scope.

Lemma Qis0_spec (q : Q) : reflect (q == 0) (Qis0 q).
Proof.
  unfold Qis0. destruct (Qeq_bool q 0) eqn:E; constructor.
  - now apply Qeq_bool_iff.
  - intro H. apply Qeq_bool_iff in H. congruence.
Qed.

Lemma Qltb_spec (a b : Q) : reflect (a < b) (Qltb a b).
Proof.
  unfold Qltb. destruct (Qle_bool b a) eqn:E; simpl; constructor.
  - apply Qle_bool_iff in E. lra.
  - assert (b <= a -> False) by (intro L; apply Qle_bool_iff in L; congruence).
    lra.
Qed.

Lemma Qleb_spec (a b : Q) : reflect (a <= b) (Qle_bool a b).
Proof.
  destruct (Qle_bool a b) eqn:E; constructor.
  - now apply Qle_bool_iff.
  - intro H. apply Qle_bool_iff in H. congruence.
Qed.

End NumFacts.

(** Case analysis on every test of a rational that occurs in the goal. *)
Ltac qtests :=
  repeat match goal with
    | |- context [Qis0 ?q] => destruct (Qis0_spec q)
    | |- context [Qltb ?a ?b] => destruct (Qltb_spec a b)
    | |- context [Qle_bool ?a ?b] => destruct (Qleb_spec a b)
    | H : context [Qis0 ?q] |- _ => destruct (Qis0_spec q)
    | H : context [Qltb ?a ?b] |- _ => destruct (Qltb_spec a b)
    | H : context [Qle_bool ?a ?b] |- _ => destruct (Qleb_spec a b)
    end.

Ltac jsnum_unfold :=
  cbv beta iota delta
    [jeq jmul jdiv jadd jsub jneg jmin jmax jle jlt jgt jge jor truthy
     inf_times negb andb orb] in *.

Ltac jsnum_cases :=
  jsnum_unfold; qtests; jsnum_unfold;
  try easy; try lra; try nra.

Section JeqFacts.

Local Open Scope js_scope.

Lemma jeq_refl (a : jsnum) : a ==j a.
Proof. destruct a; simpl; auto. reflexivity. Qed.

Lemma jeq_sym (a b : jsnum) : a ==j b -> b ==j a.
Proof. destruct a, b; simpl; auto. intro H; now rewrite H. Qed.

Lemma jeq_trans (a b c : jsnum) : a ==j b -> b ==j c -> a ==j c.
Proof.
  destruct a, b, c; simpl; auto; try tauto.
  intros H1 H2; now rewrite H1.
Qed.

#[export] Instance jeq_Equivalence : Equivalence jeq.
Proof.
  split; [exact jeq_refl | exact jeq_sym | exact jeq_trans].
Qed.


#[export] Instance Fin_Proper : Proper (Qeq ==> jeq) Fin.
Proof. intros x y H. exact H. Qed.

#[export] Instance jmul_Proper : Proper (jeq ==> jeq ==> jeq) jmul.
Proof.
  intros a a' Ha b b' Hb.
  destruct a, a'; try contradiction; destruct b, b'; try contradiction;
    jsnum_cases.
Qed.

#[export] Instance jdiv_Proper : Proper (jeq ==> jeq ==> jeq) jdiv.
Proof.
  intros a a' Ha b b' Hb.
  destruct a, a'; try contradiction; destruct b, b'; try contradiction;
    jsnum_cases.
  now rewrite Ha, Hb.
Qed.

#[export] Instance jround_Proper : Proper (jeq ==> jeq) jround.
Proof.
  intros a a' Ha. destruct a, a'; try contradiction; jsnum_unfold; auto.
  unfold jround, jeq. now rewrite Ha.
Qed.

#[export] Instance jadd_Proper : Proper (jeq ==> jeq ==> jeq) jadd.
Proof.
  intros a a' Ha b b' Hb.
  destruct a, a'; try contradiction; destruct b, b'; try contradiction;
    jsnum_cases.
Qed.

#[export] Instance jsub_Proper : Proper (jeq ==> jeq ==> jeq) jsub.
Proof.
  intros a a' Ha b b' Hb.
  destruct a, a'; try contradiction; destruct b, b'; try contradiction;
    jsnum_cases.
Qed.

#[export] Instance jle_Proper : Proper (jeq ==> jeq ==> eq) jle.
Proof.
  intros a a' Ha b b' Hb.
  destruct a, a'; try contradiction; destruct b, b'; try contradiction;
    jsnum_cases.
Qed.

#[export] Instance jlt_Proper : Proper (jeq ==> jeq ==> eq) jlt.
Proof.
  intros a a' Ha b b' Hb.
  destruct a, a'; try contradiction; destruct b, b'; try contradiction;
    jsnum_cases.
Qed.

#[export] Instance jgt_Proper : Proper (jeq ==> jeq ==> eq) jgt.
Proof. intros a a' Ha b b' Hb. unfold jgt. now rewrite Ha, Hb. Qed.

#[export] Instance jge_Proper : Proper (jeq ==> jeq ==> eq) jge.
Proof. intros a a' Ha b b' Hb. unfold jge. now rewrite Ha, Hb. Qed.

#[export] Instance jmin_Proper : Proper (jeq ==> jeq ==> jeq) jmin.
Proof.
  intros a a' Ha b b' Hb.
  destruct a, a'; try contradiction; destruct b, b'; try contradiction;
    jsnum_cases.
Qed.

#[export] Instance jmax_Proper : Proper (jeq ==> jeq ==> jeq) jmax.
Proof.
  intros a a' Ha b b' Hb.
  destruct a, a'; try contradiction; destruct b, b'; try contradiction;
    jsnum_cases.
Qed.


End JeqFacts.


(* ================================================================== *)
(** ** The checks of [calculate] *)

Section Checks.

Context {R : Runtime}.

(** "Not entered or not positive" is the negation of [prob > 0]. *)
Lemma not_positive (x : jsnum) :
  negb (truthy x) || jle x (Fin 0) = negb (jgt x (Fin 0)).
Proof. destruct x; jsnum_cases. Qed.


Lemma odds_check (x : jsnum) :
  negb (truthy x) || jlt x (Fin (101 # 100)) = negb (jge x (Fin (101 # 100))).
Proof. destruct x; jsnum_cases. Qed.

Lemma bank_check (x : jsnum) :
  negb (truthy x) || jlt x (Fin 100) = negb (jge x (Fin 100)).
Proof. destruct x; jsnum_cases. Qed.


(** [calculate] on a page whose odds pass the first check. *)
Lemma calculate_after_odds (pg : BetRecords.Page) :
  jge (BetRecords.oddsOf pg) (Fin (101 # 100)) = true ->
  BetRecords.calculate pg =
    match BetRecords.probabilityToUse pg (BetRecords.probOf pg) with
    | inr pg' => (false, pg')
    | inl (prob, pg') =>
        if jle prob (Fin 0) || jge prob (Fin 100) then
          (false, BetRecords.showError pg' BetRecords.ProbabilityOutOfRange)
        else if negb (jge (BetRecords.bankOf pg) (Fin 100)) then
          (false, BetRecords.showError pg' BetRecords.BankAtLeast100)
        else
          (true, BetRecords.showResult (BetRecords.hideError pg')
                   (BetRecords.bankOf pg) (BetRecords.oddsOf pg) prob
                   (BetRecords.fractionOf pg))
    end.
Proof.
  intros Ho. unfold BetRecords.calculate. cbv zeta.
  fold (BetRecords.oddsOf pg) (BetRecords.probOf pg) (BetRecords.bankOf pg)
    (BetRecords.fractionOf pg).
  rewrite odds_check, Ho. change (negb true) with false. cbv iota.
  destruct (BetRecords.probabilityToUse pg (BetRecords.probOf pg))
    as [[prob pg']|pg']; [|reflexivity].
  now rewrite bank_check.
Qed.


End Checks.

(* ================================================================== *)
(** ** The Kelly stake *)

Section Kelly.

Context {R : Runtime}.
Local Open Scope js_scope.



(** What [calculateStake] writes when the flag is down. *)
Lemma calculateStake_unmodified (f : Main.Page) :
  Main.userModified f = false ->
  Main.calculateStake f =
    if Main.accepts (Main.bankOf f) (Main.oddsOf f) (Main.probOf f) then
      let r := Main.roundToHundreds
                 (Main.stake (Main.bankOf f) (Main.oddsOf f) (Main.probOf f)
                    (Main.fractionOf f)) in
      Main.setStake f (numToString r) (Main.formatNumberWithSpaces r)
        [Main.StakeSetAutomatically]
    else
      Main.setStake f (lit "0") (lit "0")
        ([Main.ConditionNotMet]
         ++ Main.when (jle (Main.oddsOf f) (Fin 1)) Main.OddsAtMost1
         ++ Main.when (jle (Main.probOf f) (Fin 0)) Main.ProbAtMost0
         ++ Main.when (jge (Main.probOf f) (Fin 100)) Main.ProbAtLeast100
         ++ Main.when (jle (Main.bankOf f) (Fin 0)) Main.BankAtMost0
         ++ [Main.StakeResetTo0]).
Proof.
  intros Hf. unfold Main.calculateStake. rewrite Hf. simpl negb. cbv iota.
  unfold Main.bankOf, Main.oddsOf, Main.probOf, Main.fractionOf.
  destruct (Main.accepts _ _ _); [reflexivity|].
  now rewrite <- !app_assoc.
Qed.

(** The numbers read do not depend on the flag. *)
Lemma numbers_setUserModified (f : Main.Page) (b : bool) :
  Main.bankOf (Main.setUserModified f b) = Main.bankOf f
  /\ Main.oddsOf (Main.setUserModified f b) = Main.oddsOf f
  /\ Main.probOf (Main.setUserModified f b) = Main.probOf f
  /\ Main.fractionOf (Main.setUserModified f b) = Main.fractionOf f.
Proof. repeat split. Qed.









End Kelly.

(* ================================================================== *)
(** ** The inputs the calculators accept *)

Section Domain.

Context {R : Runtime}.




(** The probability [calculate] goes on with, by cases. *)
Lemma probabilityToUse_entered (pg : BetRecords.Page) :
  jgt (BetRecords.probOf pg) (Fin 0) = true ->
  BetRecords.probabilityToUse pg (BetRecords.probOf pg)
  = inl (BetRecords.probOf pg, pg).
Proof.
  intros H. unfold BetRecords.probabilityToUse.
  now rewrite not_positive, H.
Qed.




Lemma probabilityToUse_inr (pg pg' : BetRecords.Page) (prob : jsnum) :
  BetRecords.probabilityToUse pg prob = inr pg' ->
  pg' = BetRecords.showError pg BetRecords.CannotComputeProbability.
Proof.
  unfold BetRecords.probabilityToUse.
  destruct (negb (truthy prob) || jle prob (Fin 0)); [|discriminate].
  destruct (BetRecords.calculateDefaultProbability pg) as [d|].
  - destruct (truthy d); [discriminate|]. now intros [= <-].
  - now intros [= <-].
Qed.


End Domain.

(* ================================================================== *)
(** ** The calculators on concrete pages *)











(** The two boundaries of the checks: [calculate] accepts odds of
    exactly 1.01, and [calculateStake] a probability of exactly 100. *)
Lemma boundaries_accepted :
  fst (@BetRecords.calculate ExampleRuntime.runtime
         (Examples.betsPage "1.01" "60" "1000" "1")) = true
  /\ Main.accepts (Main.bankOf (Examples.mainPage "1000" "2" "100" "1" "0" false))
       (Main.oddsOf (Examples.mainPage "1000" "2" "100" "1" "0" false))
       (Main.probOf (Examples.mainPage "1000" "2" "100" "1" "0" false))
     = true.
Proof. split; vm_compute; reflexivity. Qed.

(* ================================================================== *)
(** ** Reading a number from a control *)

Section Reading.

Lemma jor_not_nan (x : jsnum) : is_nan (jor x (Fin 0)) = false.
Proof. destruct x; jsnum_cases. Qed.

Lemma getFloatValue_not_nan (element : option Main.Element) :
  is_nan (Main.getFloatValue element) = false.
Proof.
  destruct element as [[v]|]; [|reflexivity].
  destruct v; [reflexivity|]. apply jor_not_nan.
Qed.

(** C9 (as amended): [getFloatValue] is total and never yields [NaN]:
    it returns 0 for a missing element, for an empty value, and for a
    value that, white space removed and the first comma turned into a
    dot, does not parse as a number; for every other value it returns
    the number parsed, which is finite or an infinity. *)
Theorem getFloatValue_never_NaN :
  (forall element : option Main.Element,
     is_nan (Main.getFloatValue element) = false)
  /\ Main.getFloatValue None = Fin 0
  /\ Main.getFloatValue (Some {| Main.value := [] |}) = Fin 0
  /\ (forall e : Main.Element,
        parseFloat (replaceFirstComma (removeWhiteSpace (Main.value e))) = NaN ->
        Main.getFloatValue (Some e) = Fin 0)
  /\ (forall e : Main.Element,
        truthy (parseFloat (replaceFirstComma (removeWhiteSpace (Main.value e))))
        = false ->
        Main.getFloatValue (Some e) = Fin 0)
  /\ (forall e : Main.Element,
        Main.value e <> [] ->
        truthy (parseFloat (replaceFirstComma (removeWhiteSpace (Main.value e))))
        = true ->
        Main.getFloatValue (Some e)
        = parseFloat (replaceFirstComma (removeWhiteSpace (Main.value e)))).
Proof.
  split; [exact getFloatValue_not_nan|].
  split; [reflexivity|]. split; [reflexivity|]. split; [|split].
  - intros [v] H. destruct v as [|c v]; [reflexivity|].
    unfold Main.getFloatValue. cbn [Main.value] in *. now rewrite H.
  - intros [v] H. destruct v as [|c v]; [reflexivity|].
    unfold Main.getFloatValue, jor. cbn [Main.value] in *. now rewrite H.
  - intros [v] Hv Ht. destruct v as [|c v]; [now contradiction Hv|].
    unfold Main.getFloatValue, jor. cbn [Main.value] in *. now rewrite Ht.
Qed.

End Reading.

Lemma getFloatValue_never_NaN_witness :
  Main.getFloatValue (Some {| Main.value := lit "abc" |}) = Fin 0
  /\ Main.getFloatValue (Some {| Main.value := lit "1 234,5" |})
     = parseFloat (lit "1234.5").
Proof.
  destruct getFloatValue_never_NaN as (_ & _ & _ & H1 & _ & H2).
  split.
  - apply H1. vm_compute. reflexivity.
  - apply (H2 {| Main.value := lit "1 234,5" |}).
    + discriminate.
    + vm_compute. reflexivity.
Defined.

(** The claim C9 as it is written fails: the value [Infinity] parses as
    a number that is not finite, and [getFloatValue] returns it. *)
Lemma getFloatValue_Infinity :
  Main.getFloatValue (Some {| Main.value := lit "Infinity" |}) = PInf
  /\ is_finite (Main.getFloatValue (Some {| Main.value := lit "Infinity" |}))
     = false.
Proof. split; vm_compute; reflexivity. Qed.

(* ================================================================== *)
(** ** The stake typed by the user *)

Section UserModified.

Context {R : Runtime}.

Lemma calculateStake_modified (f : Main.Page) :
  Main.userModified f = true ->
  Main.stakeInput (Main.calculateStake f) = Main.stakeInput f
  /\ Main.stakeDisplay (Main.calculateStake f) = Main.stakeDisplay f
  /\ Main.userModified (Main.calculateStake f) = true.
Proof.
  intros Hf. unfold Main.calculateStake. rewrite Hf. cbv zeta. simpl negb.
  cbv iota.
  destruct (Main.accepts _ _ _); simpl; auto.
Qed.

Lemma calculateStake_runs (f : Main.Page) (n : nat) :
  Main.userModified f = true ->
  Main.stakeInput (Nat.iter n Main.calculateStake f) = Main.stakeInput f
  /\ Main.stakeDisplay (Nat.iter n Main.calculateStake f)
     = Main.stakeDisplay f
  /\ Main.userModified (Nat.iter n Main.calculateStake f) = true.
Proof.
  intros Hf. induction n as [|n IH]; [auto|].
  destruct IH as (Hi & Hd & Hm). simpl.
  destruct (calculateStake_modified _ Hm) as (Hi' & Hd' & Hm').
  rewrite Hi', Hd'. auto.
Qed.

(** C7: typing in the stake display raises [_userModified] and copies
    the text, white space removed, to the stake field; while the flag is
    up every run of [calculateStake] leaves the stake field and the
    stake display as they are, whether it accepts the inputs or not; an
    edit of the bank, the odds, the probability or the multiplier lowers
    the flag and fills both again: with the rounded stake when the
    inputs are accepted, with 0 when they are not. *)
Theorem user_modified_stake_kept :
  (forall (f : Main.Page) (v : jsstring),
     let f' := Main.dispatch (Main.EditStakeDisplay v) f in
     Main.userModified f' = true
     /\ Main.value (Main.stakeDisplay f') = v
     /\ Main.value (Main.stakeInput f') = removeWhiteSpace v)
  /\
  (forall (f : Main.Page) (n : nat),
     Main.userModified f = true ->
     Main.stakeInput (Nat.iter n Main.calculateStake f) = Main.stakeInput f
     /\ Main.stakeDisplay (Nat.iter n Main.calculateStake f)
        = Main.stakeDisplay f
     /\ Main.userModified (Nat.iter n Main.calculateStake f) = true)
  /\
  (forall (f : Main.Page) (ev : Main.event),
     recalculates ev = true ->
     let g := Main.edit ev f in
     let f' := Main.dispatch ev f in
     Main.userModified f' = false
     /\ (if Main.accepts (Main.bankOf g) (Main.oddsOf g) (Main.probOf g)
         then
           let r := Main.roundToHundreds
                      (Main.stake (Main.bankOf g) (Main.oddsOf g)
                         (Main.probOf g) (Main.fractionOf g)) in
           Main.value (Main.stakeInput f') = numToString r
           /\ Main.value (Main.stakeDisplay f')
              = Main.formatNumberWithSpaces r
         else
           Main.value (Main.stakeInput f') = lit "0"
           /\ Main.value (Main.stakeDisplay f') = lit "0")).
Proof.
  split; [|split].
  - intros f v. simpl. auto.
  - exact calculateStake_runs.
  - intros f ev Hev g f'.
    assert (E : f' = Main.recalcWithFlag g)
      by (destruct ev; try discriminate; reflexivity).
    rewrite E. unfold Main.recalcWithFlag.
    rewrite calculateStake_unmodified by reflexivity.
    destruct (numbers_setUserModified g false) as (-> & -> & -> & ->).
    destruct (Main.accepts _ _ _); simpl; auto.
Qed.

End UserModified.

Lemma user_modified_stake_kept_witness :
  Main.stakeInput
    (Nat.iter 3 (@Main.calculateStake ExampleRuntime.runtime)
       Examples.typedStakeForm)
  = {| Main.value := lit "700" |}
  /\ Main.userModified
       (@Main.dispatch ExampleRuntime.runtime (Main.EditOdds (lit "3"))
          Examples.typedStakeForm) = false.
Proof.
  destruct (@user_modified_stake_kept ExampleRuntime.runtime)
    as (_ & Hk & Hr).
  split.
  - destruct (Hk Examples.typedStakeForm 3%nat) as (E & _).
    + reflexivity.
    + exact E.
  - destruct (Hr Examples.typedStakeForm (Main.EditOdds (lit "3")))
      as (E & _).
    + reflexivity.
    + exact E.
Defined.

(* ================================================================== *)
(** ** The phone mask *)

Section PhoneMask.

Lemma formatPhone_halves (s : jsstring) :
  Scripts.formatPhone s = Scripts.phoneLayout (Scripts.phoneDigits s).
Proof. reflexivity. Qed.

Lemma substringFrom_1 (c : N) (s : jsstring) : substringFrom 1 (c :: s) = s.
Proof.
  unfold substringFrom, substring. cbn [length].
  rewrite Nat.min_id. cbn. rewrite Nat.sub_0_r. apply firstn_all.
Qed.

Lemma removeNonDigits_all (s : jsstring) :
  Forall (fun c => isDigit c = true) (removeNonDigits s).
Proof.
  unfold removeNonDigits. apply Forall_forall. intros c Hc.
  now apply filter_In in Hc.
Qed.

Lemma phoneDigits_all (s : jsstring) :
  Forall (fun c => isDigit c = true) (Scripts.phoneDigits s).
Proof.
  unfold Scripts.phoneDigits. cbv zeta.
  pose proof (removeNonDigits_all s) as H.
  destruct (removeNonDigits s) as [|c r]; [exact H|].
  destruct ((c =? 55)%N || (c =? 56)%N); [|exact H].
  rewrite substringFrom_1. now inversion H.
Qed.

Ltac known_digits :=
  repeat match goal with
    | H : Forall _ (_ :: _) |- _ => inversion H; subst; clear H
    end;
  repeat match goal with
    | H : isDigit ?c = true |- _ => rewrite !H; clear H
    end.

Ltac by_length d :=
  do 10 (destruct d as [|? d]; [cbn; known_digits; cbn; try reflexivity|]).

(** The digits of a masked value: the 7 of the prefix, then the first
    ten digits that were laid out. *)
Lemma phoneLayout_digits (d : jsstring) :
  Forall (fun c => isDigit c = true) d ->
  removeNonDigits (Scripts.phoneLayout d) = 55%N :: firstn 10 d.
Proof.
  intros H. unfold Scripts.phoneLayout, removeNonDigits, substring.
  by_length d.
  cbn. known_digits. reflexivity.
Qed.

(** The mask looks at the first ten digits only. *)
Lemma phoneLayout_firstn (d : jsstring) :
  Scripts.phoneLayout (firstn 10 d) = Scripts.phoneLayout d.
Proof.
  unfold Scripts.phoneLayout, substring.
  do 10 (destruct d as [|? d]; [reflexivity|]).
  cbn. reflexivity.
Qed.

Lemma phoneDigits_layout (d : jsstring) :
  Forall (fun c => isDigit c = true) d ->
  Scripts.phoneDigits (Scripts.phoneLayout d) = firstn 10 d.
Proof.
  intros H. unfold Scripts.phoneDigits. cbv zeta.
  rewrite (phoneLayout_digits d H).
  change ((55 =? 55)%N || (55 =? 56)%N) with true. cbv iota.
  apply substringFrom_1.
Qed.

(** C8: the mask is idempotent, every masked value begins with [+7 ]
    and has at most ten digits after it; so the listener, run again on
    the value it has written, writes the same value. *)
Theorem formatPhone_idempotent (s : jsstring) :
  Scripts.formatPhone (Scripts.formatPhone s) = Scripts.formatPhone s
  /\ (exists rest : jsstring,
        Scripts.formatPhone s = lit "+7 " ++ rest
        /\ (length (removeNonDigits rest) <= 10)%nat)
  /\ (forall name : jsstring,
        Scripts.phoneInput name (Scripts.phoneInput name s)
        = Scripts.phoneInput name s).
Proof.
  assert (Hidem : forall u, Scripts.formatPhone (Scripts.formatPhone u)
                            = Scripts.formatPhone u).
  { intros u. rewrite !formatPhone_halves.
    rewrite (phoneDigits_layout _ (phoneDigits_all u)).
    apply phoneLayout_firstn. }
  split; [apply Hidem|]. split; cycle 1.
  { intros name. unfold Scripts.phoneInput.
    destruct name as [|c name]; [reflexivity|].
    destruct (Scripts.includes (lit "phone") (c :: name));
      [apply Hidem|reflexivity]. }
  rewrite !formatPhone_halves.
  pose proof (phoneDigits_all s) as Hd.
  set (d := Scripts.phoneDigits s) in *.
  assert (P : Scripts.phoneLayout d
              = lit "+7 " ++ skipn 3 (Scripts.phoneLayout d)).
  { unfold Scripts.phoneLayout. cbv zeta.
    destruct (0 <? length d), (3 <=? length d), (6 <=? length d),
      (8 <=? length d); reflexivity. }
  exists (skipn 3 (Scripts.phoneLayout d)). split; [exact P|].
  pose proof (phoneLayout_digits d Hd) as H.
  rewrite P in H at 1. unfold removeNonDigits in *.
  rewrite filter_app in H.
  change (filter isDigit (lit "+7 ")) with [55%N] in H. cbn [app] in H.
  apply (f_equal (@tl N)) in H. cbn [tl] in H.
  rewrite H. apply firstn_le_length.
Qed.

End PhoneMask.

(* ================================================================== *)
(** ** The alerts *)

Section Alerts.

Import Scripts.

Lemma nth_error_update {A : Type} (f : A -> A) (l : list A) (i j : nat) :
  nth_error (update i f l) j
  = if (i =? j)%nat then option_map f (nth_error l j) else nth_error l j.
Proof.
  revert i j. induction l as [|x l IH]; intros i j.
  - destruct i, j; simpl; try reflexivity; now destruct (i =? j)%nat.
  - destruct i, j; simpl; try reflexivity. apply IH.
Qed.

Lemma length_update {A : Type} (f : A -> A) (l : list A) (i : nat) :
  length (update i f l) = length l.
Proof.
  revert i. induction l as [|x l IH]; intros [|i]; simpl; auto.
Qed.












End Alerts.


(* ================================================================== *)
(** ** Numbers typed with spaces and a decimal comma *)

Section DecimalReading.












(** X1: The number read does not depend on the white space in the field. *)
Theorem getFloatValue_ignores_white_space (v1 v2 : jsstring) :
  removeWhiteSpace v1 = removeWhiteSpace v2 ->
  Main.getFloatValue (Some {| Main.value := v1 |})
  = Main.getFloatValue (Some {| Main.value := v2 |}).
Proof.
  intros H. unfold Main.getFloatValue. cbn [Main.value].
  destruct v1 as [|c1 r1], v2 as [|c2 r2]; try reflexivity.
  - rewrite <- H. reflexivity.
  - rewrite H. reflexivity.
  - now rewrite H.
Qed.


End DecimalReading.

Lemma getFloatValue_ignores_white_space_witness :
  Main.getFloatValue (Some {| Main.value := lit " 12 500 " |})
  = Main.getFloatValue (Some {| Main.value := lit "12500" |}).
Proof.
  apply getFloatValue_ignores_white_space. reflexivity.
Defined.


(* ================================================================== *)
(** ** The stake field and its display over a session *)

Section StakeSession.

Context {R : Runtime}.

(** The grouping only adds spaces. *)
Lemma groupFrom_white_space (prev : option N) (s : jsstring) :
  removeWhiteSpace (groupFrom prev s) = removeWhiteSpace s.
Proof.
  revert prev. induction s as [|c s IH]; intros prev; [reflexivity|].
  cbn [groupFrom]. unfold removeWhiteSpace in *.
  rewrite filter_app. cbn [filter].
  rewrite IH. now destruct (groupHere prev (c :: s)).
Qed.

(** X3: What [formatNumberWithSpaces] shows is, the white space taken out,
    the text of the number: the [input] listener of the stake display,
    which takes the white space out, recovers the stake field from a
    display that [calculateStake] has written. *)
Theorem formatNumberWithSpaces_only_adds_spaces (v : jsnum) :
  removeWhiteSpace (Main.formatNumberWithSpaces v)
  = removeWhiteSpace (numToString v).
Proof. apply groupFrom_white_space. Qed.

Lemma removeWhiteSpace_idempotent (s : jsstring) :
  removeWhiteSpace (removeWhiteSpace s) = removeWhiteSpace s.
Proof.
  unfold removeWhiteSpace. induction s as [|c s IH]; [reflexivity|].
  cbn [filter]. destruct (negb (isWhiteSpace c)) eqn:E; [|exact IH].
  cbn [filter]. now rewrite E, IH.
Qed.

Lemma sameFields_numbers (f g : Main.Page) :
  Session.sameFields f g -> Session.automatic f = Session.automatic g.
Proof.
  intros (Hb & Ho & Hp & Hk).
  unfold Session.automatic, Main.bankOf, Main.oddsOf, Main.probOf,
    Main.fractionOf.
  now rewrite Hb, Ho, Hp, Hk.
Qed.

Lemma calculateStake_fields (f : Main.Page) :
  Session.sameFields (Main.calculateStake f) f.
Proof.
  unfold Main.calculateStake. cbv zeta.
  destruct (Main.accepts _ _ _), (negb (Main.userModified f));
    repeat split.
Qed.

Lemma recalcWithFlag_automatic (f : Main.Page) :
  Main.userModified (Main.recalcWithFlag f) = false
  /\ (Main.value (Main.stakeInput (Main.recalcWithFlag f)),
      Main.value (Main.stakeDisplay (Main.recalcWithFlag f)))
     = Session.automatic f
  /\ Session.sameFields (Main.recalcWithFlag f) f.
Proof.
  unfold Main.recalcWithFlag.
  split; [|split].
  - rewrite calculateStake_unmodified by reflexivity.
    now destruct (Main.accepts _ _ _).
  - rewrite calculateStake_unmodified by reflexivity.
    unfold Session.automatic.
    destruct (numbers_setUserModified f false) as (-> & -> & -> & ->).
    now destruct (Main.accepts _ _ _).
  - destruct (calculateStake_fields (Main.setUserModified f false))
      as (Hb & Ho & Hp & Hk).
    repeat split; assumption.
Qed.

Lemma edit_fields (ev : Main.event) (f g : Main.Page) :
  Session.sameFields f g -> Session.sameFields (Main.edit ev f) (Main.edit ev g).
Proof.
  intros (Hb & Ho & Hp & Hk). unfold Session.sameFields, Main.edit. cbn.
  now rewrite Hb, Ho, Hp, Hk.
Qed.

Lemma dispatch_fields (ev : Main.event) (f : Main.Page) :
  Session.sameFields (Main.dispatch ev f) (Main.edit ev f).
Proof.
  destruct ev; cbn [Main.dispatch];
    try apply recalcWithFlag_automatic.
  repeat split.
Qed.

Lemma after_snoc (evs : list Main.event) (ev : Main.event) (pg : Main.Page) :
  Session.after (evs ++ [ev]) pg = Main.dispatch ev (Session.after evs pg).
Proof. unfold Session.after. now rewrite fold_left_app. Qed.

Lemma edited_snoc (evs : list Main.event) (ev : Main.event) (pg : Main.Page) :
  Session.edited (evs ++ [ev]) pg = Main.edit ev (Session.edited evs pg).
Proof. unfold Session.edited. now rewrite fold_left_app. Qed.

Lemma after_fields (evs : list Main.event) (pg : Main.Page) :
  Session.sameFields (Session.after evs pg) (Session.edited evs pg).
Proof.
  induction evs as [|ev evs IH] using rev_ind.
  - apply recalcWithFlag_automatic.
  - rewrite after_snoc, edited_snoc.
    destruct (dispatch_fields ev (Session.after evs pg)) as (Hb & Ho & Hp & Hk).
    destruct (edit_fields ev _ _ IH) as (Hb' & Ho' & Hp' & Hk').
    repeat split; congruence.
Qed.

Lemma after_last_edit (pg : Main.Page) (evs : list Main.event) :
  let f := Session.after evs pg in
  let g := Session.edited evs pg in
  match rev evs with
  | Main.EditStakeDisplay v :: _ =>
      Main.userModified f = true
      /\ Main.value (Main.stakeDisplay f) = v
      /\ Main.value (Main.stakeInput f) = removeWhiteSpace v
  | _ =>
      Main.userModified f = false
      /\ (Main.value (Main.stakeInput f), Main.value (Main.stakeDisplay f))
         = Session.automatic g
  end.
Proof.
  intros f g. subst f g.
  induction evs as [|ev evs _] using rev_ind.
  - cbn [rev]. destruct (recalcWithFlag_automatic pg) as (H1 & H2 & _).
    split; assumption.
  - rewrite rev_app_distr. cbn [rev app].
    rewrite after_snoc, edited_snoc.
    pose proof (after_fields evs pg) as Hs.
    pose proof (edit_fields ev _ _ Hs) as He.
    destruct ev as [v|v|v|v|v]; cbn [Main.dispatch]; cbv beta iota.
    5: { repeat split; reflexivity. }
    all: match goal with
         | |- context [Main.recalcWithFlag ?x] =>
             destruct (recalcWithFlag_automatic x) as (H1 & H2 & _);
             split; [exact H1|]; rewrite H2;
             apply sameFields_numbers; exact He
         end.
Qed.

(** X4: After the load and any edits, the stake shown is decided by the
    last edit alone: when it was of the stake display, the flag is up
    and the page holds what was typed; otherwise (and just after the
    load) the flag is down and the page holds the stake computed from
    the four fields as they are now. *)
Theorem stake_follows_last_edit (pg : Main.Page) (evs : list Main.event) :
  let f := Session.after evs pg in
  let g := Session.edited evs pg in
  match rev evs with
  | Main.EditStakeDisplay v :: _ =>
      Main.userModified f = true
      /\ Main.value (Main.stakeDisplay f) = v
      /\ Main.value (Main.stakeInput f) = removeWhiteSpace v
  | _ =>
      Main.userModified f = false
      /\ (Main.value (Main.stakeInput f), Main.value (Main.stakeDisplay f))
         = Session.automatic g
  end.
Proof. exact (after_last_edit pg evs). Qed.

(** X5: After the load and any edits the stake field and the stake display
    hold the same text up to white space. *)
Theorem stake_field_matches_display (pg : Main.Page) (evs : list Main.event) :
  removeWhiteSpace (Main.value (Main.stakeDisplay (Session.after evs pg)))
  = removeWhiteSpace (Main.value (Main.stakeInput (Session.after evs pg))).
Proof.
  pose proof (after_last_edit pg evs) as H. cbv zeta in H.
  assert (A : forall p,
             removeWhiteSpace (snd (Session.automatic p))
             = removeWhiteSpace (fst (Session.automatic p))).
  { intros p. unfold Session.automatic.
    destruct (Main.accepts _ _ _); [|reflexivity].
    apply groupFrom_white_space. }
  destruct (rev evs) as [|[v|v|v|v|v] l].
  all: try (destruct H as (_ & H);
            specialize (A (Session.edited evs pg));
            rewrite <- H in A; exact A).
  destruct H as (_ & -> & ->). symmetry. apply removeWhiteSpace_idempotent.
Qed.

End StakeSession.

(* ================================================================== *)
(** ** Thousands in groups of three *)

Section Grouping.






End Grouping.


(* ================================================================== *)
(** ** The size of the stake *)

Section StakeSize.

Local Open Scope Q_scope.

#[export] Instance roundToHundreds_Proper :
  Proper (jeq ==> jeq) Main.roundToHundreds.
Proof. intros a b H. unfold Main.roundToHundreds. now rewrite H. Qed.







End StakeSize.




(* ================================================================== *)
(** ** Rounding to hundreds *)

Section Rounding.

Local Open Scope Q_scope.



End Rounding.


(* ================================================================== *)
(** ** The two blocks of the calculator *)

Section Blocks.

Context {R : Runtime}.

(** X11: After [calculate] exactly one of the two blocks is shown: the
    result block when it returns [true], the error block with a message
    when it returns [false]. *)
Theorem calculate_shows_one_block (pg : BetRecords.Page) :
  (fst (BetRecords.calculate pg) = true
   /\ BetRecords.resultBlockDisplay (snd (BetRecords.calculate pg))
      = lit "block"
   /\ BetRecords.errorBlockDisplay (snd (BetRecords.calculate pg))
      = lit "none")
  \/ (fst (BetRecords.calculate pg) = false
      /\ BetRecords.resultBlockDisplay (snd (BetRecords.calculate pg))
         = lit "none"
      /\ BetRecords.errorBlockDisplay (snd (BetRecords.calculate pg))
         = lit "flex"
      /\ exists m, BetRecords.errorMessage (snd (BetRecords.calculate pg))
                   = Some m).
Proof.
  destruct (jge (BetRecords.oddsOf pg) (Fin (101 # 100))) eqn:Ho.
  - rewrite (calculate_after_odds pg Ho).
    destruct (BetRecords.probabilityToUse pg (BetRecords.probOf pg))
      as [[prob pg']|pg'] eqn:Hu.
    + destruct (jle prob (Fin 0) || jge prob (Fin 100));
        [right; cbn; eauto|].
      destruct (jge (BetRecords.bankOf pg) (Fin 100));
        [left|right]; cbn; eauto.
    + apply probabilityToUse_inr in Hu. subst pg'. right. cbn. eauto.
  - unfold BetRecords.calculate. cbv zeta. fold (BetRecords.oddsOf pg).
    rewrite odds_check, Ho. right. cbn. eauto.
Qed.

Lemma showError_again (pg : BetRecords.Page) (m : BetRecords.message) :
  BetRecords.showError (BetRecords.showError pg m) m
  = BetRecords.showError pg m.
Proof. reflexivity. Qed.


(** X12: With a positive probability entered, [calculate] writes none of
    the four fields, and running it again changes nothing. *)
Theorem calculate_again (pg : BetRecords.Page) :
  jgt (BetRecords.probOf pg) (Fin 0) = true ->
  BetRecords.inputs (snd (BetRecords.calculate pg)) = BetRecords.inputs pg
  /\ BetRecords.calculate (snd (BetRecords.calculate pg))
     = BetRecords.calculate pg.
Proof.
  intros Hp.
  assert (Hsame : forall q,
            BetRecords.inputs q = BetRecords.inputs pg ->
            BetRecords.oddsOf q = BetRecords.oddsOf pg
            /\ BetRecords.probOf q = BetRecords.probOf pg
            /\ BetRecords.bankOf q = BetRecords.bankOf pg
            /\ BetRecords.fractionOf q = BetRecords.fractionOf pg).
  { intros q Hq. unfold BetRecords.oddsOf, BetRecords.probOf,
      BetRecords.bankOf, BetRecords.fractionOf. now rewrite Hq. }
  destruct (jge (BetRecords.oddsOf pg) (Fin (101 # 100))) eqn:Ho.
  - rewrite (calculate_after_odds pg Ho).
    rewrite (probabilityToUse_entered pg Hp).
    assert (Hafter : forall q,
              BetRecords.inputs q = BetRecords.inputs pg ->
              BetRecords.calculate q
              = if jle (BetRecords.probOf pg) (Fin 0)
                   || jge (BetRecords.probOf pg) (Fin 100)
                then (false, BetRecords.showError q
                               BetRecords.ProbabilityOutOfRange)
                else if negb (jge (BetRecords.bankOf pg) (Fin 100))
                then (false, BetRecords.showError q BetRecords.BankAtLeast100)
                else (true, BetRecords.showResult (BetRecords.hideError q)
                              (BetRecords.bankOf pg) (BetRecords.oddsOf pg)
                              (BetRecords.probOf pg)
                              (BetRecords.fractionOf pg))).
    { intros q Hq. destruct (Hsame q Hq) as (Eo & Ep & Eb & Ef).
      rewrite calculate_after_odds by (now rewrite Eo).
      rewrite probabilityToUse_entered by (now rewrite Ep).
      now rewrite Eo, Ep, Eb, Ef. }
    destruct (jle (BetRecords.probOf pg) (Fin 0)
              || jge (BetRecords.probOf pg) (Fin 100)) eqn:Hr.
    + cbn [snd]. split; [reflexivity|].
      rewrite Hafter by reflexivity. reflexivity.
    + destruct (jge (BetRecords.bankOf pg) (Fin 100)) eqn:Hb;
        cbn [negb snd] in *.
      * split; [reflexivity|].
        rewrite Hafter by reflexivity. reflexivity.
      * split; [reflexivity|].
        rewrite Hafter by reflexivity. reflexivity.
  - unfold BetRecords.calculate at 1 3 4. cbv zeta.
    fold (BetRecords.oddsOf pg). rewrite odds_check, Ho. cbn [negb snd].
    split; [reflexivity|].
    unfold BetRecords.calculate. cbv zeta.
    change (parseFloat (BetRecords.oddsInput
              (BetRecords.inputs
                 (BetRecords.showError pg BetRecords.OddsMustExceed101))))
      with (BetRecords.oddsOf pg).
    now rewrite odds_check, Ho.
Qed.

End Blocks.

Lemma calculate_again_witness :
  BetRecords.inputs
    (snd (@BetRecords.calculate ExampleRuntime.runtime Examples.halfKellyPage))
  = BetRecords.inputs Examples.halfKellyPage
  /\ @BetRecords.calculate ExampleRuntime.runtime
       (snd (@BetRecords.calculate ExampleRuntime.runtime
               Examples.halfKellyPage))
     = @BetRecords.calculate ExampleRuntime.runtime Examples.halfKellyPage.
Proof.
  apply (@calculate_again ExampleRuntime.runtime Examples.halfKellyPage).
  vm_compute. reflexivity.
Defined.

(* ================================================================== *)
(** ** The probability hint and the example cards *)

Section HintFacts.

Context {R : Runtime}.






End HintFacts.




(* ================================================================== *)
(** ** The record cards *)

Section CardFacts.

(** X16: After a click on a card that card alone is outlined. *)
Theorem click_outlines_one_card (cards : list jsstring) (i : nat) :
  (i < length cards)%nat ->
  length (Cards.click i cards) = length cards
  /\ nth_error (Cards.click i cards) i = Some Cards.highlighted
  /\ forall j, (j < length cards)%nat -> j <> i ->
       nth_error (Cards.click i cards) j = Some (lit "none").
Proof.
  intros Hi. unfold Cards.click. split; [|split].
  - now rewrite length_update, length_map.
  - rewrite nth_error_update, Nat.eqb_refl, nth_error_map.
    destruct (nth_error cards i) eqn:E; [reflexivity|].
    apply nth_error_None in E. lia.
  - intros j Hj Hne. rewrite nth_error_update.
    replace (i =? j)%nat with false by (symmetry; apply Nat.eqb_neq; lia).
    rewrite nth_error_map.
    destruct (nth_error cards j) eqn:E; [reflexivity|].
    apply nth_error_None in E. lia.
Qed.

End CardFacts.

Lemma click_outlines_one_card_witness :
  length (Cards.click 1 [lit "none"; Cards.highlighted; lit "none"])
  = length [lit "none"; Cards.highlighted; lit "none"]
  /\ nth_error (Cards.click 1 [lit "none"; Cards.highlighted; lit "none"]) 1
     = Some Cards.highlighted
  /\ forall j,
       (j < length [lit "none"; Cards.highlighted; lit "none"])%nat ->
       j <> 1%nat ->
       nth_error (Cards.click 1 [lit "none"; Cards.highlighted; lit "none"]) j
       = Some (lit "none").
Proof.
  apply click_outlines_one_card. cbn. lia.
Defined.

(* ================================================================== *)
(** ** The bulk actions *)

Section BulkFacts.

Import BulkActions.

Variable toLowerCase : jsstring -> jsstring.

Lemma countElements_app (a b : list Node) :
  countElements (a ++ b) = (countElements a + countElements b)%nat.
Proof. unfold countElements. now rewrite filter_app, length_app. Qed.

Lemma countElements_cons (n : Node) (l : list Node) :
  countElements (n :: l)
  = ((if isElement n then 1 else 0) + countElements l)%nat.
Proof. unfold countElements. cbn. now destruct (isElement n). Qed.


Lemma trimFuel_small (f : nat) (nodes : list Node) :
  (countElements nodes <= 3)%nat -> trimFuel f nodes = nodes.
Proof.
  intros H. destruct f; [reflexivity|]. cbn [trimFuel].
  destruct (Nat.ltb_spec 3 (countElements nodes)); [lia|reflexivity].
Qed.

Lemma trimFuel_fourth (f : nat) :
  forall nodes : list Node,
    (length nodes <= f)%nat -> (3 < countElements nodes)%nat ->
    exists n r,
      nodes = trimFuel f nodes ++ n :: r
      /\ isElement n = true
      /\ countElements (trimFuel f nodes) = 3%nat.
Proof.
  induction f as [|f IH]; intros nodes Hl Hc.
  - destruct nodes; [cbn in Hc; lia|cbn in Hl; lia].
  - cbn [trimFuel].
    destruct (Nat.ltb_spec 3 (countElements nodes)) as [_|]; [|lia].
    assert (Hne : nodes <> []) by (intros ->; cbn in Hc; lia).
    destruct (exists_last Hne) as (l & x & ->).
    rewrite removelast_last.
    rewrite countElements_app, countElements_cons in Hc.
    rewrite length_app in Hl. cbn in Hl, Hc.
    destruct (Nat.ltb_spec 3 (countElements l)) as [Hbig|Hsmall].
    + destruct (IH l ltac:(lia) Hbig) as (n & r & E & Hn & H3).
      exists n, (r ++ [x]). split; [|auto].
      rewrite E at 1. now rewrite <- app_assoc.
    + rewrite (trimFuel_small f l Hsmall). exists x, [].
      destruct (isElement x); [|lia]. repeat split; lia.
Qed.

Lemma trim_small (nodes : list Node) :
  (countElements nodes <= 3)%nat -> trim nodes = nodes.
Proof. apply trimFuel_small. Qed.

Lemma trim_fourth (nodes : list Node) :
  (3 < countElements nodes)%nat ->
  exists n r,
    nodes = trim nodes ++ n :: r
    /\ isElement n = true
    /\ countElements (trim nodes) = 3%nat.
Proof. apply trimFuel_fourth. reflexivity. Qed.

(** X17: The loop of the apply button leaves a form with at most three
    element children as it is; from a form with more it removes the
    fourth element child and every node after it, and keeps the nodes
    before it. *)
Theorem trim_removes_from_fourth_element (nodes : list Node) :
  ((countElements nodes <= 3)%nat -> trim nodes = nodes)
  /\ ((3 < countElements nodes)%nat ->
      exists n r,
        nodes = trim nodes ++ n :: r
        /\ isElement n = true
        /\ countElements (trim nodes) = 3%nat).
Proof. split; [apply trim_small|apply trim_fourth]. Qed.




Lemma setValue_shape (id v : jsstring) (nodes : list Node) :
  forall nodes', setValue id v nodes = Some nodes' ->
    countElements nodes' = countElements nodes
    /\ length nodes' = length nodes.
Proof.
  induction nodes as [|a nodes IH]; intros nodes' H; [discriminate|].
  cbn [setValue] in H.
  destruct (isElement a && streq (nodeId a) id) eqn:E.
  - injection H as <-. apply andb_prop in E. destruct E as [Ea _].
    rewrite !countElements_cons, Ea. cbn. auto.
  - destruct (setValue id v nodes) as [l|]; [|discriminate].
    cbn in H. injection H as <-. destruct (IH l eq_refl) as [Hc Hl].
    rewrite !countElements_cons, Hc. cbn. auto.
Qed.

Lemma assignById_shape (id v : jsstring) (p q : Page) :
  assignById id v p = Some q ->
  countElements (formNodes q) = countElements (formNodes p)
  /\ length (formNodes q) = length (formNodes p)
  /\ checkboxes q = checkboxes p /\ alerts q = alerts p
  /\ actionSelected q = actionSelected p.
Proof.
  unfold assignById. intros H.
  destruct (setValue id v (formNodes p)) as [form|] eqn:E.
  - injection H as <-. cbn. apply setValue_shape in E. tauto.
  - destruct (setValue id v (outside p)); [|discriminate].
    injection H as <-. cbn. auto.
Qed.

Lemma append_hidden (sel : list Checkbox) :
  forall q : Page,
    let r :=
      fold_left
        (fun q cb =>
           withDocument q (formNodes q ++ [hiddenInput cb]) (outside q))
        sel q in
    formNodes r = formNodes q ++ map hiddenInput sel
    /\ checkboxes r = checkboxes q /\ alerts r = alerts q.
Proof.
  induction sel as [|cb sel IH]; intros q; cbn [fold_left map].
  - cbv zeta. now rewrite app_nil_r.
  - destruct (IH (withDocument q (formNodes q ++ [hiddenInput cb])
                    (outside q))) as (Hf & Hc & Ha).
    cbv zeta. rewrite Hf, Hc, Ha. cbn. now rewrite <- app_assoc.
Qed.


(** X19: After a change of a checkbox the values of the boxes are as before,
    the apply button is enabled exactly when some box is checked, and a
    click on the enabled button with an action chosen shows no alert. *)
Theorem button_enabled_iff_checked (i : nat) (p : Page) :
  map cbValue (checkboxes (toggleCheckbox i p)) = map cbValue (checkboxes p)
  /\ (applyDisabled (toggleCheckbox i p) = false
      <-> exists cb, In cb (checkboxes (toggleCheckbox i p))
                     /\ checked cb = true)
  /\ (applyDisabled (toggleCheckbox i p) = false ->
      actionValue (toggleCheckbox i p) <> [] ->
      forall q,
        applyClick toLowerCase (toggleCheckbox i p) = Done q ->
        alerts q = alerts p /\ modalShown q = true).
Proof.
  split; [|split].
  - cbn. generalize (checkboxes p) as l. intros l. revert i.
    induction l as [|x l IH]; intros [|i]; cbn; try reflexivity.
    now rewrite IH.
  - set (p' := toggleCheckbox i p).
    assert (Hd : applyDisabled p' = (length (selectedOf p') =? 0)%nat)
      by reflexivity.
    rewrite Hd. unfold selectedOf. split.
    + intros H. apply Nat.eqb_neq in H.
      destruct (filter checked (checkboxes p')) as [|cb l] eqn:E;
        [now elim H|].
      exists cb. apply filter_In. rewrite E. now left.
    + intros (cb & Hin & Hc). apply Nat.eqb_neq. intros H0.
      apply length_zero_iff_nil in H0.
      assert (Hf : In cb (filter checked (checkboxes p')))
        by (apply filter_In; auto).
      rewrite H0 in Hf. exact Hf.
  - set (p' := toggleCheckbox i p). intros Hd Ha q Hq.
    assert (Hs : selectedOf p' <> []).
    { change (applyDisabled p') with (length (selectedOf p') =? 0)%nat in Hd.
      apply Nat.eqb_neq in Hd. intros E. rewrite E in Hd. now elim Hd. }
    unfold applyClick in Hq. cbv zeta in Hq.
    destruct (actionValue p') as [|c a] eqn:Ea; [congruence|].
    destruct (selectedOf p') as [|cb sel] eqn:Es; [congruence|].
    cbn [length Nat.eqb] in Hq.
    destruct (assignById (lit "bulkActionInput") (c :: a)
                (withDocument p' (trim (formNodes p')) (outside p')))
      as [p2|] eqn:Eas; [|discriminate].
    injection Hq as <-. cbn [modalShown alerts].
    destruct (append_hidden (cb :: sel) p2) as (_ & _ & Hal).
    cbv zeta in Hal. cbn [fold_left] in Hal.
    destruct (assignById_shape _ _ _ _ Eas) as (_ & _ & _ & Hal2 & _).
    rewrite Hal, Hal2. split; reflexivity.
Qed.

(** X20: [toggleFilters] leaves the filter form shown with the arrow down or
    hidden with the arrow to the right; it shows a hidden form and
    hides any other, and two more calls bring the same state back. *)
Theorem toggleFilters_alternates (st : jsstring * jsstring) :
  (toggleFilters st = (lit "block", arrowDown)
   \/ toggleFilters st = (lit "none", arrowRight))
  /\ (fst (toggleFilters st) = lit "block" <-> fst st = lit "none")
  /\ toggleFilters (toggleFilters (toggleFilters st)) = toggleFilters st.
Proof.
  assert (Hstreq : forall a b, streq a b = true <-> a = b).
  { induction a as [|x a IH]; intros [|y b]; cbn; split; intros H;
      try discriminate; try reflexivity.
    - apply andb_prop in H. destruct H as [Hx Hr].
      apply N.eqb_eq in Hx. apply IH in Hr. congruence.
    - injection H as -> ->. rewrite N.eqb_refl. cbn. now apply IH. }
  unfold toggleFilters.
  destruct (streq (fst st) (lit "none")) eqn:E.
  - split; [now left|]. split; [|reflexivity].
    split; [intros _; now apply Hstreq|reflexivity].
  - split; [now right|]. split; [|reflexivity].
    cbn [fst]. split; [discriminate|].
    intros H. apply Hstreq in H. congruence.
Qed.

End BulkFacts.


Lemma trim_removes_from_fourth_element_witness :
  exists n r,
    BulkActions.formNodes BulkExamples.clicked
    = BulkActions.trim (BulkActions.formNodes BulkExamples.clicked) ++ n :: r
    /\ BulkActions.isElement n = true
    /\ BulkActions.countElements
         (BulkActions.trim (BulkActions.formNodes BulkExamples.clicked))
       = 3%nat.
Proof.
  apply (proj2 (trim_removes_from_fourth_element
                  (BulkActions.formNodes BulkExamples.clicked))).
  vm_compute. lia.
Defined.

Lemma button_enabled_iff_checked_witness :
  BulkActions.alerts BulkExamples.clicked = BulkActions.alerts BulkExamples.page
  /\ BulkActions.modalShown BulkExamples.clicked = true.
Proof.
  refine (proj2 (proj2 (button_enabled_iff_checked (fun s => s) 1
                          BulkExamples.unchecked))
            _ _ BulkExamples.clicked _).
  - reflexivity.
  - discriminate.
  - vm_compute. reflexivity.
Defined.

(* ================================================================== *)
(** ** Typing into the phone mask *)

Section PhoneTyping.

Import Scripts.

Lemma filter_keep {A : Type} (f : A -> bool) (a : A) (l : list A) :
  f a = true -> filter f (a :: l) = a :: filter f l.
Proof. intros H. cbn [filter]. now rewrite H. Qed.

Lemma filter_drop {A : Type} (f : A -> bool) (a : A) (l : list A) :
  f a = false -> filter f (a :: l) = filter f l.
Proof. intros H. cbn [filter]. now rewrite H. Qed.

Ltac filter_known :=
  repeat first
    [ rewrite filter_keep by (assumption || reflexivity)
    | rewrite filter_drop by reflexivity ];
  cbn [filter].

Ltac digits_known :=
  repeat match goal with
    | H : Forall _ (_ :: _) |- _ => inversion H; subst; clear H
    end;
  repeat match goal with
    | H : isDigit ?c = true |- _ => rewrite !H; clear H
    end.

Lemma phoneLayout_length (d : jsstring) :
  (length (phoneLayout d) <= 18)%nat
  /\ ((10 <= length d)%nat <-> length (phoneLayout d) = 18%nat).
Proof.
  unfold phoneLayout, substring.
  do 10 (destruct d as [|? d]; [cbn; split; [lia|split; intros; lia]|]).
  cbn. split; [lia|split; intros; lia].
Qed.

(** X21: The masked value has at most 18 code units, and 18 exactly when
    ten digits or more were entered. *)
Theorem formatPhone_length (s : jsstring) :
  (length (formatPhone s) <= 18)%nat
  /\ ((10 <= length (phoneDigits s))%nat <-> length (formatPhone s) = 18%nat).
Proof. rewrite formatPhone_halves. apply phoneLayout_length. Qed.

Lemma phoneDigits_typed (d : jsstring) (c : N) :
  Forall (fun c => isDigit c = true) d ->
  phoneDigits (phoneLayout d ++ [c])
  = firstn 10 d ++ (if isDigit c then [c] else []).
Proof.
  intros H. unfold phoneDigits. cbv zeta.
  unfold removeNonDigits. rewrite filter_app.
  change (filter isDigit (phoneLayout d))
    with (removeNonDigits (phoneLayout d)).
  rewrite (phoneLayout_digits d H). cbn [app].
  change ((55 =? 55)%N || (55 =? 56)%N) with true. cbv iota.
  rewrite substringFrom_1. cbn [filter].
  now destruct (isDigit c).
Qed.

Lemma formatPhone_typed (s : jsstring) (c : N) :
  formatPhone (formatPhone s ++ [c])
  = if isDigit c
    then phoneLayout (firstn 10 (phoneDigits s) ++ [c])
    else formatPhone s.
Proof.
  rewrite (formatPhone_halves (_ ++ _)), (formatPhone_halves s).
  rewrite (phoneDigits_typed _ c (phoneDigits_all s)).
  destruct (isDigit c); [reflexivity|].
  rewrite app_nil_r. apply phoneLayout_firstn.
Qed.

(** X22: A character typed at the end of a masked value: a digit is laid
    out after the digits already there, any other character leaves the
    value as it was, and so does a digit after a complete number. *)
Theorem typing_at_the_end (s : jsstring) (c : N) :
  formatPhone (formatPhone s ++ [c])
  = (if isDigit c
     then phoneLayout (firstn 10 (phoneDigits s) ++ [c])
     else formatPhone s)
  /\ ((10 <= length (phoneDigits s))%nat ->
      formatPhone (formatPhone s ++ [c]) = formatPhone s).
Proof.
  pose proof (formatPhone_typed s c) as E.
  split; [exact E|].
  intros Hfull. rewrite E. destruct (isDigit c); [|reflexivity].
  rewrite formatPhone_halves.
  rewrite <- (phoneLayout_firstn (_ ++ _)).
  rewrite firstn_app, firstn_firstn, length_firstn.
  replace (10 - Nat.min 10 (length (phoneDigits s)))%nat with 0%nat by lia.
  cbn [firstn Nat.min]. rewrite app_nil_r. apply phoneLayout_firstn.
Qed.

Lemma removelast_layout_digits (d : jsstring) :
  Forall (fun c => isDigit c = true) d ->
  (length d <= 10)%nat ->
  removeNonDigits (removelast (phoneLayout d))
  = 55%N :: (if endsWithMask (length d) then d else removelast d).
Proof.
  intros H Hl. unfold phoneLayout, removeNonDigits, substring.
  do 11 (destruct d as [|? d]; [cbn; digits_known; reflexivity|]).
  cbn in Hl. lia.
Qed.

Lemma backspace_layout (d : jsstring) :
  Forall (fun c => isDigit c = true) d ->
  (length d <= 10)%nat ->
  formatPhone (removelast (phoneLayout d))
  = if endsWithMask (length d) then phoneLayout d
    else phoneLayout (removelast d).
Proof.
  intros H Hl. rewrite formatPhone_halves. unfold phoneDigits. cbv zeta.
  rewrite (removelast_layout_digits d H Hl).
  change ((55 =? 55)%N || (55 =? 56)%N) with true. cbv iota.
  rewrite substringFrom_1. now destruct (endsWithMask (length d)).
Qed.

(** X23: The last character of a masked value deleted: when it is a digit,
    the number loses its last digit; when it belongs to the mask (no
    digit, or three, six or eight of them), the mask writes the same
    value again. *)
Theorem backspace_at_the_end (s : jsstring) :
  formatPhone (removelast (formatPhone s))
  = if endsWithMask (length (firstn 10 (phoneDigits s)))
    then formatPhone s
    else phoneLayout (removelast (firstn 10 (phoneDigits s))).
Proof.
  rewrite (formatPhone_halves s), <- (phoneLayout_firstn (phoneDigits s)).
  apply backspace_layout.
  - pose proof (phoneDigits_all s) as H.
    rewrite <- (firstn_skipn 10 (phoneDigits s)) in H.
    apply Forall_app in H. exact (proj1 H).
  - rewrite length_firstn. lia.
Qed.

Lemma formatPhoneLimited_cases (s : jsstring) :
  Scripts2.formatPhoneLimited s
  = if (10 <? length (phoneDigits s))%nat then substring 0 18 s
    else formatPhone s.
Proof. reflexivity. Qed.

Lemma substring_0 (n : nat) (s : jsstring) : substring 0 n s = firstn n s.
Proof.
  unfold substring. cbn. rewrite Nat.sub_0_r.
  destruct (Nat.le_ge_cases n (length s)) as [H|H].
  - now rewrite Nat.min_l.
  - rewrite Nat.min_r by exact H. now rewrite firstn_all, firstn_all2.
Qed.

(** X24: The mask with a limit gives what the first mask gives while at most
    ten digits remain, and the first 18 code units of the value as
    typed beyond that; its value never has more than 18 code units,
    and a character typed after a complete number is dropped. *)
Theorem formatPhoneLimited_limit (s : jsstring) :
  ((length (phoneDigits s) <= 10)%nat ->
   Scripts2.formatPhoneLimited s = formatPhone s)
  /\ ((10 < length (phoneDigits s))%nat ->
      Scripts2.formatPhoneLimited s = firstn 18 s)
  /\ (length (Scripts2.formatPhoneLimited s) <= 18)%nat
  /\ (forall c : N,
        (10 <= length (phoneDigits s))%nat ->
        Scripts2.formatPhoneLimited (formatPhone s ++ [c]) = formatPhone s).
Proof.
  rewrite formatPhoneLimited_cases. split; [|split; [|split]].
  - intros H. destruct (Nat.ltb_spec 10 (length (phoneDigits s)));
      [lia|reflexivity].
  - intros H. destruct (Nat.ltb_spec 10 (length (phoneDigits s)));
      [apply substring_0|lia].
  - destruct (Nat.ltb_spec 10 (length (phoneDigits s))).
    + rewrite substring_0, length_firstn. lia.
    + rewrite formatPhone_halves. apply phoneLayout_length.
  - intros c Hfull. rewrite formatPhoneLimited_cases.
    rewrite (formatPhone_halves s).
    rewrite (phoneDigits_typed _ c (phoneDigits_all s)).
    assert (H18 : length (phoneLayout (phoneDigits s)) = 18%nat)
      by (apply phoneLayout_length; exact Hfull).
    destruct (isDigit c) eqn:Hc.
    + rewrite length_app, length_firstn. cbn [length].
      replace (10 <? Nat.min 10 (length (phoneDigits s)) + 1)%nat with true
        by (symmetry; apply Nat.ltb_lt; lia).
      rewrite substring_0, firstn_app, H18, Nat.sub_diag, firstn_0.
      rewrite app_nil_r. rewrite <- H18. apply firstn_all.
    + rewrite app_nil_r, length_firstn.
      replace (10 <? Nat.min 10 (length (phoneDigits s)))%nat with false
        by (symmetry; apply Nat.ltb_ge; lia).
      rewrite <- (formatPhone_halves s), formatPhone_typed, Hc. reflexivity.
Qed.

(** X25: A digit typed in front of a complete number: the first mask lays
    out the new digit and the first nine of the old ones at once; the
    mask with a limit leaves the first 18 code units as typed, which is
    another value, and lays the mask only when it runs again. *)
Theorem formatPhoneLimited_not_idempotent (d : jsstring) (x : N) :
  Forall (fun c => isDigit c = true) d ->
  length d = 10%nat ->
  isDigit x = true ->
  let typed := lit "+7 (" ++ x :: skipn 4 (phoneLayout d) in
  formatPhone typed = phoneLayout (x :: firstn 9 d)
  /\ Scripts2.formatPhoneLimited typed = firstn 18 typed
  /\ Scripts2.formatPhoneLimited typed <> formatPhone typed
  /\ Scripts2.formatPhoneLimited (Scripts2.formatPhoneLimited typed)
     = formatPhone typed.
Proof.
  intros H Hl Hx.
  destruct d as [|a0 d]; [discriminate|]. destruct d as [|a1 d]; [discriminate|].
  destruct d as [|a2 d]; [discriminate|]. destruct d as [|a3 d]; [discriminate|].
  destruct d as [|a4 d]; [discriminate|]. destruct d as [|a5 d]; [discriminate|].
  destruct d as [|a6 d]; [discriminate|]. destruct d as [|a7 d]; [discriminate|].
  destruct d as [|a8 d]; [discriminate|]. destruct d as [|a9 d]; [discriminate|].
  destruct d; [|discriminate]. clear Hl.
  repeat match goal with
    | H : Forall _ (_ :: _) |- _ => inversion H; subst; clear H
    | H : Forall _ [] |- _ => clear H
    end.
  cbv zeta.
  set (typed := lit "+7 (" ++ x :: skipn 4 (phoneLayout _)).
  assert (Htyped : typed
                   = [43; 55; 32; 40; x; a0; a1; a2; 41; 32; a3; a4; a5; 45;
                      a6; a7; 45; a8; a9]%N) by reflexivity.
  assert (Hfirst : firstn 18 typed
                   = [43; 55; 32; 40; x; a0; a1; a2; 41; 32; a3; a4; a5; 45;
                      a6; a7; 45; a8]%N) by (rewrite Htyped; reflexivity).
  assert (D1 : phoneDigits typed = [x; a0; a1; a2; a3; a4; a5; a6; a7; a8; a9]).
  { unfold phoneDigits, removeNonDigits. cbv zeta. rewrite Htyped.
    filter_known.
    change ((55 =? 55)%N || (55 =? 56)%N) with true. cbv iota.
    apply substringFrom_1. }
  assert (D2 : phoneDigits (firstn 18 typed)
               = [x; a0; a1; a2; a3; a4; a5; a6; a7; a8]).
  { unfold phoneDigits, removeNonDigits. cbv zeta. rewrite Hfirst.
    filter_known.
    change ((55 =? 55)%N || (55 =? 56)%N) with true. cbv iota.
    apply substringFrom_1. }
  assert (E1 : formatPhone typed
               = phoneLayout (x :: firstn 9
                                     [a0; a1; a2; a3; a4; a5; a6; a7; a8; a9]))
    by (rewrite formatPhone_halves, D1; reflexivity).
  assert (E2 : Scripts2.formatPhoneLimited typed = firstn 18 typed)
    by (rewrite formatPhoneLimited_cases, D1; apply substring_0).
  split; [exact E1|]. split; [exact E2|]. split.
  - rewrite E2, E1, Hfirst. intros E.
    apply (f_equal (fun l => nth 7 l 0%N)) in E. vm_compute in E.
    subst a2. discriminate.
  - rewrite E2, formatPhoneLimited_cases, D2, E1.
    rewrite formatPhone_halves, D2. reflexivity.
Qed.

End PhoneTyping.

Lemma typing_at_the_end_witness :
  Scripts.formatPhone (Scripts.formatPhone (lit "89123456789") ++ [48%N])
  = Scripts.formatPhone (lit "89123456789").
Proof.
  apply (proj2 (typing_at_the_end (lit "89123456789") 48%N)).
  vm_compute. lia.
Defined.

Lemma formatPhoneLimited_limit_witness :
  Scripts2.formatPhoneLimited (lit "8912345") = Scripts.formatPhone (lit "8912345").
Proof.
  apply (proj1 (formatPhoneLimited_limit (lit "8912345"))).
  vm_compute. lia.
Defined.

Lemma formatPhoneLimited_not_idempotent_witness :
  let typed := lit "+7 (" ++ 53%N :: skipn 4 (Scripts.phoneLayout (lit "9123456789")) in
  Scripts.formatPhone typed
  = Scripts.phoneLayout (53%N :: firstn 9 (lit "9123456789"))
  /\ Scripts2.formatPhoneLimited typed = firstn 18 typed
  /\ Scripts2.formatPhoneLimited typed <> Scripts.formatPhone typed
  /\ Scripts2.formatPhoneLimited (Scripts2.formatPhoneLimited typed)
     = Scripts.formatPhone typed.
Proof.
  apply (formatPhoneLimited_not_idempotent (lit "9123456789") 53%N).
  - repeat constructor.
  - reflexivity.
  - reflexivity.
Defined.

(* ================================================================== *)
(** ** The pay-all button *)

Section PayAll.


End PayAll.

